(** * Hostel listing backend ([app.js]): model and verified properties

    The service keeps one process-wide array [hostelCache], filled once by
    [prefetchHostelData], and answers five routes either from that array or
    by querying the [Hostel] collection.

    Conventions of the model.
    - A string is held as its UTF-8 bytes.  Letter case is the ASCII one.
    - A number is a binary64 value: [NaN], an infinity, or the rational a
      finite value is, every operation rounding to nearest, ties to even.
      Zero has no sign.
    - A query-string parameter is a single string or is absent
      ([option string], [None] being [undefined]).
    - The collection is a list of documents in its natural order; a store
      call is answered from it or fails, call by call.
    - The store is described for what the handlers need of it: equality and
      [$gte] conditions, [$regex] patterns of ordinary characters and [.],
      sort by rating, skip and limit by safe integers.  To any other query
      the store gives an answer of its own, [beyond], about which nothing
      is assumed. *)

From Stdlib Require Import ZArith QArith Qround Qpower Qreduction Qabs.
From Stdlib Require Import Bool List Ascii String Lia Lqa.
From Stdlib Require Import Permutation Sorted.
From Stdlib Require Qcanon.
Import ListNotations.

Local Open Scope Z_scope.

(** ** JavaScript values and built-ins used by the handlers *)

Module Js.

(** A number: [NaN], an infinity, or a finite binary64 value held as the
    rational it is.  Zero has no sign. *)
Inductive number : Type :=
| NaN
| Infinity (negative : bool)
| Num (q : Q).

Definition isNaN (v : number) : bool :=
  match v with NaN => true | _ => false end.

(** *** Rounding to binary64 (round to nearest, ties to even) *)

(** Floor of the binary logarithm of a positive rational. *)
Definition ilog2 (a : Q) : Z :=
  let e := Z.log2 (Qnum a) - Z.log2 (Zpos (Qden a)) in
  if Qle_bool (2 ^ e) a then e else e - 1.

Definition roundTiesToEven (x : Q) : Z :=
  let f := Qfloor x in
  match (x - inject_Z f ?= 1 # 2)%Q with
  | Lt => f
  | Gt => f + 1
  | Eq => if Z.even f then f else f + 1
  end.

(** The binary64 value nearest to a positive rational: 53 significant bits,
    least exponent -1074; [None] when it is 2^1024 or more. *)
Definition roundMagnitude (a : Q) : option Q :=
  let k := Z.max (ilog2 a - 52) (-1074) in
  let r := (inject_Z (roundTiesToEven (a * 2 ^ (- k))) * 2 ^ k)%Q in
  if Qle_bool (2 ^ 1024) r then None else Some (Qred r).

Definition round64 (q : Q) : number :=
  let q := Qred q in
  match (q ?= 0)%Q with
  | Eq => Num 0
  | Lt => match roundMagnitude (- q) with
          | Some r => Num (- r)
          | None => Infinity true
          end
  | Gt => match roundMagnitude q with
          | Some r => Num r
          | None => Infinity false
          end
  end.

(** The number for an integer. *)
Definition ofInteger (z : Z) : number := round64 (inject_Z z).

(** *** Arithmetic, as the handlers use it *)

(** [a - b]. *)
Definition sub (a b : number) : number :=
  match a, b with
  | NaN, _ => NaN
  | _, NaN => NaN
  | Infinity s, Infinity t => if Bool.eqb s t then NaN else Infinity s
  | Infinity s, Num _ => Infinity s
  | Num _, Infinity t => Infinity (negb t)
  | Num x, Num y => round64 (x - y)
  end.

Definition timesInfinity (negative : bool) (y : Q) : number :=
  match (y ?= 0)%Q with
  | Eq => NaN
  | Lt => Infinity (negb negative)
  | Gt => Infinity negative
  end.

(** [a * b]. *)
Definition mul (a b : number) : number :=
  match a, b with
  | NaN, _ => NaN
  | _, NaN => NaN
  | Infinity s, Infinity t => Infinity (xorb s t)
  | Infinity s, Num y => timesInfinity s y
  | Num x, Infinity t => timesInfinity t x
  | Num x, Num y => round64 (x * y)
  end.

(** [a / b]. *)
Definition div (a b : number) : number :=
  match a, b with
  | NaN, _ => NaN
  | _, NaN => NaN
  | Infinity _, Infinity _ => NaN
  | Infinity s, Num y =>
      match (y ?= 0)%Q with Lt => Infinity (negb s) | _ => Infinity s end
  | Num _, Infinity _ => Num 0
  | Num x, Num y =>
      match (y ?= 0)%Q with
      | Eq => timesInfinity false x
      | _ => round64 (x / y)
      end
  end.

(** [Math.ceil]. *)
Definition Math_ceil (v : number) : number :=
  match v with
  | Num q => Num (inject_Z (Qceiling q))
  | _ => v
  end.

(** The number of a safe integer, written out. *)
Definition integer (z : Z) : number := Num (inject_Z z).

(** [n || d] for numbers: [NaN] and [0] are falsy. *)
Definition orDefault (n d : number) : number :=
  match n with
  | NaN => d
  | Infinity _ => n
  | Num q => if Qeq_bool q 0 then d else n
  end.

(** *** Strings

    A string is held as its UTF-8 bytes; a byte 160 that stands alone is
    read as the character U+00A0. *)

(** [ToString] of a query-string value. *)
Definition ToString (v : option string) : string :=
  match v with
  | Some s => s
  | None => "undefined"%string
  end.

(** Truthiness of a query-string value: [undefined] and the empty string
    are falsy. *)
Definition truthy (v : option string) : bool :=
  match v with
  | Some s => negb (String.eqb s "")
  | None => false
  end.

(** White space and line terminators, by the length of their encoding:
    TAB, LF, VT, FF, CR, SP and U+00A0; U+00A0 again, as C2 A0; then
    U+1680, U+2000 to U+200A, U+2028, U+2029, U+202F, U+205F, U+3000 and
    U+FEFF. *)
Definition isWhiteSpace (c : ascii) : bool :=
  let n := N_of_ascii c in
  (N.eqb n 9 || N.eqb n 10 || N.eqb n 11 || N.eqb n 12 || N.eqb n 13
   || N.eqb n 32 || N.eqb n 160)%bool.

Definition isWhiteSpace2 (c1 c2 : ascii) : bool :=
  (N.eqb (N_of_ascii c1) 194 && N.eqb (N_of_ascii c2) 160)%bool.

Definition isWhiteSpace3 (c1 c2 c3 : ascii) : bool :=
  let n1 := N_of_ascii c1 in
  let n2 := N_of_ascii c2 in
  let n3 := N_of_ascii c3 in
  (N.eqb n1 225 && N.eqb n2 154 && N.eqb n3 128
   || N.eqb n1 226 && N.eqb n2 128
      && (N.leb 128 n3 && N.leb n3 138 || N.eqb n3 168 || N.eqb n3 169
          || N.eqb n3 175)
   || N.eqb n1 226 && N.eqb n2 129 && N.eqb n3 159
   || N.eqb n1 227 && N.eqb n2 128 && N.eqb n3 128
   || N.eqb n1 239 && N.eqb n2 187 && N.eqb n3 191)%bool.

(** What is left of [s] once its leading white space is removed. *)
Fixpoint trimStart (s : string) : string :=
  match s with
  | EmptyString => s
  | String c1 r1 =>
      if isWhiteSpace c1 then trimStart r1
      else
        match r1 with
        | EmptyString => s
        | String c2 r2 =>
            if isWhiteSpace2 c1 c2 then trimStart r2
            else
              match r2 with
              | EmptyString => s
              | String c3 r3 =>
                  if isWhiteSpace3 c1 c2 c3 then trimStart r3 else s
              end
        end
  end.

(** Value of a character read as a digit of a radix up to 16. *)
Definition digitValue (c : ascii) : option Z :=
  let n := Z.of_N (N_of_ascii c) in
  if (48 <=? n) && (n <=? 57) then Some (n - 48)
  else if (97 <=? n) && (n <=? 102) then Some (n - 87)
  else if (65 <=? n) && (n <=? 70) then Some (n - 55)
  else None.

Definition digitIn (radix : Z) (c : ascii) : option Z :=
  match digitValue c with
  | Some d => if d <? radix then Some d else None
  | None => None
  end.

(** Longest prefix of [s] made of digits of [radix]: its value on top of
    [acc], how many digits were read on top of [count], and what follows. *)
Fixpoint digits (radix : Z) (s : string) (acc : Z) (count : nat)
  : Z * nat * string :=
  match s with
  | String c r =>
      match digitIn radix c with
      | Some d => digits radix r (acc * radix + d) (S count)
      | None => (acc, count, s)
      end
  | EmptyString => (acc, count, s)
  end.

Definition signOf (s : string) : bool * string :=
  match s with
  | String "-" r => (true, r)
  | String "+" r => (false, r)
  | _ => (false, s)
  end.

Definition applySign (negative : bool) (n : Z) : Z :=
  if negative then - n else n.

Definition hexPrefix (s : string) : option string :=
  match s with
  | String "0" (String "x" r) => Some r
  | String "0" (String "X" r) => Some r
  | _ => None
  end.

(** [parseInt(string)] with no radix argument. *)
Definition parseInt (s : string) : number :=
  let (negative, body) := signOf (trimStart s) in
  let '(value, count, _) :=
    match hexPrefix body with
    | Some r => digits 16 r 0 0
    | None => digits 10 body 0 0
    end in
  match count with
  | O => NaN
  | S _ => ofInteger (applySign negative value)
  end.

Definition scale10 (m e : Z) : Q :=
  if 0 <=? e then inject_Z (m * 10 ^ e)
  else Qmake m (Z.to_pos (10 ^ (- e))).

(** Exponent part of a decimal literal: [e] or [E], an optional sign and at
    least one digit; anything else contributes nothing. *)
Definition exponentPart (s : string) : Z :=
  match s with
  | String c r =>
      if (Ascii.eqb c "e" || Ascii.eqb c "E")%bool then
        let (negative, r') := signOf r in
        let '(value, count, _) := digits 10 r' 0 0 in
        match count with
        | O => 0
        | S _ => applySign negative value
        end
      else 0
  | EmptyString => 0
  end.

(** [parseFloat(string)]: the longest prefix that is a decimal literal. *)
Definition parseFloat (s : string) : number :=
  let (negative, body) := signOf (trimStart s) in
  if String.prefix "Infinity" body then Infinity negative
  else
    let '(ip, ni, r1) := digits 10 body 0 0 in
    let '(m, nf, r2) :=
      match r1 with
      | String "." t => digits 10 t ip 0
      | _ => (ip, O, r1)
      end in
    match (ni + nf)%nat with
    | O => NaN
    | S _ => round64 (scale10 (applySign negative m)
                              (exponentPart r2 - Z.of_nat nf))
    end.

(** [ToIntegerOrInfinity]. *)
Inductive integerOrInfinity : Type :=
| Finite (n : Z)
| MinusInfinity
| PlusInfinity.

Definition ToIntegerOrInfinity (v : number) : integerOrInfinity :=
  match v with
  | NaN => Finite 0
  | Infinity true => MinusInfinity
  | Infinity false => PlusInfinity
  | Num q => Finite (Z.quot (Qnum q) (Zpos (Qden q)))
  end.

(** [Array.prototype.slice(start, end)]. *)
Definition relativeIndex (len : Z) (i : integerOrInfinity) : Z :=
  match i with
  | MinusInfinity => 0
  | PlusInfinity => len
  | Finite n => if n <? 0 then Z.max (len + n) 0 else Z.min n len
  end.

Definition slice {A : Type} (l : list A) (start stop : number) : list A :=
  let len := Z.of_nat (List.length l) in
  let k := relativeIndex len (ToIntegerOrInfinity start) in
  let final := relativeIndex len (ToIntegerOrInfinity stop) in
  firstn (Z.to_nat (final - k)) (skipn (Z.to_nat k) l).

End Js.

(** ** Data model *)

Record Room : Type := { room_type : string; price : Q }.

(** A document of the [hostels] collection ([hostelSchema]); [description]
    and [rating] are not required. *)
Record Hostel : Type := {
  name : string;
  images : list string;
  location : string;
  description : option string;
  category : string;
  rating : option Q;
  rooms : list Room
}.

(** ** The record store: the query operators the handlers use *)

Module Mongo.

Definition Error : Type := string.

(** A settled promise. *)
Inductive Settled (A : Type) : Type :=
| Fulfilled (a : A)
| Rejected (e : Error).
Arguments Fulfilled {A} a.
Arguments Rejected {A} e.

(** A condition on one field: a value to equal, [{ $gte: v }], or
    [{ $regex: pattern, $options: options }]. *)
Inductive Cond : Type :=
| Equals (s : string)
| Gte (v : Js.number)
| Regex (pattern options : string).

(** A filter object: a plain object of field conditions, or
    [{ $or: [...] }] over such objects. *)
Inductive Filter : Type :=
| Doc (fields : list (string * Cond))
| Or (alternatives : list (list (string * Cond))).

Inductive Direction : Type :=
| Ascending   (* 1 *)
| Descending. (* -1 *)

(** The sort object: [{}] or [{ rating: direction }]. *)
Record Sort : Type := { sort_rating : option Direction }.

Record FindQuery : Type := {
  filter : Filter;
  sort : Sort;
  skip : option Js.number;
  limit : option Js.number
}.

Inductive Value : Type :=
| VString (s : string)
| VNumber (q : Q)
| VMissing.

Definition field (h : Hostel) (key : string) : Value :=
  if String.eqb key "name" then VString (name h)
  else if String.eqb key "location" then VString (location h)
  else if String.eqb key "category" then VString (category h)
  else if String.eqb key "description" then
    match description h with Some d => VString d | None => VMissing end
  else if String.eqb key "rating" then
    match rating h with Some r => VNumber r | None => VMissing end
  else VMissing.

(** *** Regular expressions

    Only a fragment of the pattern language is represented: a pattern made
    of ordinary characters and of [.], with no option or with option [i].
    Every other pattern is outside the description ([None]). *)

Inductive Atom : Type :=
| Lit (c : ascii)
| AnyChar.

Definition metachar (c : ascii) : bool :=
  existsb (Ascii.eqb c)
    (list_ascii_of_string "\^$.|?*+()[]{}").

Fixpoint compile (pattern : string) : option (list Atom) :=
  match pattern with
  | EmptyString => Some []
  | String c r =>
      match compile r with
      | None => None
      | Some atoms =>
          if Ascii.eqb c "." then Some (AnyChar :: atoms)
          else if metachar c then None
          else Some (Lit c :: atoms)
      end
  end.

Definition lower (c : ascii) : ascii :=
  let n := N_of_ascii c in
  if (N.leb 65 n && N.leb n 90)%bool then ascii_of_N (n + 32) else c.

Definition atomMatches (caseless : bool) (a : Atom) (c : ascii) : bool :=
  match a with
  | Lit x => if caseless then Ascii.eqb (lower x) (lower c) else Ascii.eqb x c
  | AnyChar => negb (Ascii.eqb c "010")
  end.

(** The bytes that continue a UTF-8 character are 128 to 191; [.] takes a
    whole character. *)
Fixpoint restOfCharacter (s : string) : string :=
  match s with
  | String c t =>
      let n := N_of_ascii c in
      if (N.leb 128 n && N.leb n 191)%bool then restOfCharacter t else s
  | EmptyString => s
  end.

Fixpoint matchesAt (caseless : bool) (atoms : list Atom) (s : string) : bool :=
  match atoms with
  | [] => true
  | a :: rest =>
      match s with
      | String c t =>
          atomMatches caseless a c
          && matchesAt caseless rest
               match a with
               | Lit _ => t
               | AnyChar => restOfCharacter t
               end
      | EmptyString => false
      end
  end.

(** An unanchored pattern matches when it matches at some position. *)
Fixpoint search (caseless : bool) (atoms : list Atom) (s : string) : bool :=
  matchesAt caseless atoms s
  || match s with
     | String _ t => search caseless atoms t
     | EmptyString => false
     end.

Definition regex (pattern options : string) : option (string -> bool) :=
  match compile pattern with
  | None => None
  | Some atoms =>
      if String.eqb options "" then Some (search false atoms)
      else if String.eqb options "i" then Some (search true atoms)
      else None
  end.

(** *** Filters *)

(** [v <= q] for the operand [v] of [$gte]. *)
Definition number_leb (v : Js.number) (q : Q) : bool :=
  match v with
  | Js.NaN => false
  | Js.Infinity negative => negative
  | Js.Num x => Qle_bool x q
  end.

Definition compileCond (c : Cond) : option (Value -> bool) :=
  match c with
  | Equals s =>
      Some (fun v => match v with VString t => String.eqb t s | _ => false end)
  | Gte n =>
      Some (fun v => match v with VNumber q => number_leb n q | _ => false end)
  | Regex pattern options =>
      match regex pattern options with
      | Some test =>
          Some (fun v => match v with VString t => test t | _ => false end)
      | None => None
      end
  end.

(** A plain filter object holds when every field condition does. *)
Fixpoint compileDoc (fields : list (string * Cond)) : option (Hostel -> bool) :=
  match fields with
  | [] => Some (fun _ => true)
  | (key, c) :: rest =>
      match compileCond c, compileDoc rest with
      | Some test, Some others =>
          Some (fun h => test (field h key) && others h)
      | _, _ => None
      end
  end.

Fixpoint compileOr (alternatives : list (list (string * Cond)))
  : option (Hostel -> bool) :=
  match alternatives with
  | [] => Some (fun _ => false)
  | d :: rest =>
      match compileDoc d, compileOr rest with
      | Some test, Some others => Some (fun h => test h || others h)
      | _, _ => None
      end
  end.

Definition compileFilter (f : Filter) : option (Hostel -> bool) :=
  match f with
  | Doc fields => compileDoc fields
  | Or alternatives => compileOr alternatives
  end.

(** *** Sorting by rating: a missing rating sorts below every number. *)

Definition rating_leb (a b : option Q) : bool :=
  match a, b with
  | None, _ => true
  | Some _, None => false
  | Some x, Some y => Qle_bool x y
  end.

Definition ascending (a b : Hostel) : bool := rating_leb (rating a) (rating b).
Definition descending (a b : Hostel) : bool := rating_leb (rating b) (rating a).

Fixpoint insert (leb : Hostel -> Hostel -> bool) (x : Hostel) (l : list Hostel)
  : list Hostel :=
  match l with
  | [] => [x]
  | y :: t => if leb x y then x :: l else y :: insert leb x t
  end.

Fixpoint sortBy (leb : Hostel -> Hostel -> bool) (l : list Hostel)
  : list Hostel :=
  match l with
  | [] => []
  | x :: t => insert leb x (sortBy leb t)
  end.

Definition applySort (s : Sort) (l : list Hostel) : list Hostel :=
  match sort_rating s with
  | None => l
  | Some Ascending => sortBy ascending l
  | Some Descending => sortBy descending l
  end.

(** *** Skip and limit

    They are described for the safe integers: a negative skip is refused;
    limit [0] is no limit and a negative limit counts as its absolute
    value. *)

Definition asInteger (v : Js.number) : option Z :=
  match v with
  | Js.Num q =>
      let r := Qred q in
      if (Pos.eqb (Qden r) 1 && (Z.abs (Qnum r) <=? 2 ^ 53))%bool
      then Some (Qnum r) else None
  | _ => None
  end.

Definition applySkip (n : option Js.number) (l : list Hostel)
  : option (Settled (list Hostel)) :=
  match n with
  | None => Some (Fulfilled l)
  | Some v =>
      match asInteger v with
      | Some k =>
          Some (if k <? 0 then Rejected "Skip value must be non-negative"%string
                else Fulfilled (skipn (Z.to_nat k) l))
      | None => None
      end
  end.

Definition applyLimit (n : option Js.number) (l : list Hostel)
  : option (list Hostel) :=
  match n with
  | None => Some l
  | Some v =>
      match asInteger v with
      | Some k => Some (if k =? 0 then l else firstn (Z.abs_nat k) l)
      | None => None
      end
  end.

(** [Hostel.find(filter).sort(sort).skip(skip).limit(limit)] on a reachable
    store, as far as it is described; [None] otherwise. *)
Definition find (collection : list Hostel) (q : FindQuery)
  : option (Settled (list Hostel)) :=
  match compileFilter (filter q) with
  | None => None
  | Some test =>
      match applySkip (skip q)
              (applySort (sort q) (List.filter test collection)) with
      | None => None
      | Some (Rejected e) => Some (Rejected e)
      | Some (Fulfilled l) =>
          match applyLimit (limit q) l with
          | Some l' => Some (Fulfilled l')
          | None => None
          end
      end
  end.

(** [Hostel.countDocuments()]. *)
Definition countDocuments (collection : list Hostel) : Js.number :=
  Js.ofInteger (Z.of_nat (List.length collection)).

(** The store as a request sees it: the documents; for each coming call
    whether it fails ([Some e], a connection or server error) or is
    answered, calls past the end of [faults] being answered; and the answer
    of the store to a query that is not described above. *)
Record Db : Type := {
  collection : list Hostel;
  faults : list (option Error);
  beyond : FindQuery -> Settled (list Hostel)
}.

Definition nextFault (db : Db) : option Error * Db :=
  match faults db with
  | [] => (None, db)
  | f :: rest =>
      (f, {| collection := collection db; faults := rest;
             beyond := beyond db |})
  end.

(** The answer of a reachable store to a [find]. *)
Definition answerFind (db : Db) (q : FindQuery) : Settled (list Hostel) :=
  match find (collection db) q with
  | Some r => r
  | None => beyond db q
  end.

End Mongo.

(** ** Handlers as programs over the cache and the store *)

Import Mongo.

Inductive Level : Type := ConsoleLog | ConsoleWarn | ConsoleError.

(** One argument of a [console] call; a template literal is kept as the
    list of its parts. *)
Inductive LogArg : Type :=
| AText (s : string)
| ANumber (v : Js.number)
| ACount (n : Z)
| AQuery (fields : list (string * Cond))
| AError (e : Mongo.Error).

(** What a piece of code does, step by step: read or assign the variable
    [hostelCache], await a store call, write to the console, finish. *)
Inductive Prog (A : Type) : Type :=
| Ret (a : A)
| ReadCache (k : list Hostel -> Prog A)
| AssignCache (c : list Hostel) (k : Prog A)
| AwaitCount (k : Settled Js.number -> Prog A)
| AwaitFind (q : FindQuery) (k : Settled (list Hostel) -> Prog A)
| Console (level : Level) (args : list LogArg) (k : Prog A).
Arguments Ret {A} a.
Arguments ReadCache {A} k.
Arguments AssignCache {A} c k.
Arguments AwaitCount {A} k.
Arguments AwaitFind {A} q k.
Arguments Console {A} level args k.

(** [try { x = await call; ... } catch (error) { ... }]. *)
Definition tryAwait {A B : Type} (r : Settled A) (body : A -> Prog B)
  (catch : Mongo.Error -> Prog B) : Prog B :=
  match r with
  | Fulfilled x => body x
  | Rejected error => catch error
  end.

Inductive Event : Type :=
| EvAssign (c : list Hostel)
| EvCount
| EvFind (q : FindQuery)
| EvConsole (level : Level) (args : list LogArg).

Record Outcome (A : Type) : Type := {
  value : A;
  cache : list Hostel;
  trace : list Event
}.
Arguments value {A} o.
Arguments cache {A} o.
Arguments trace {A} o.

Definition emit {A : Type} (e : Event) (o : option (Outcome A))
  : option (Outcome A) :=
  match o with
  | Some o' =>
      Some {| value := value o'; cache := cache o'; trace := e :: trace o' |}
  | None => None
  end.

Definition answer {A : Type} (fault : option Mongo.Error)
  (result : Settled A) : Settled A :=
  match fault with
  | Some e => Rejected e
  | None => result
  end.

(** Running a program against a store [db], [hostelCache] holding
    [hostelCache]: the value it produces, the final [hostelCache] and what
    it did, in order. *)
Fixpoint run {A : Type} (p : Prog A) (db : Db) (hostelCache : list Hostel)
  : option (Outcome A) :=
  match p with
  | Ret a => Some {| value := a; cache := hostelCache; trace := [] |}
  | ReadCache k => run (k hostelCache) db hostelCache
  | AssignCache c k => emit (EvAssign c) (run k db c)
  | AwaitCount k =>
      let (fault, db') := nextFault db in
      let r := answer fault (Fulfilled (countDocuments (collection db))) in
      emit EvCount (run (k r) db' hostelCache)
  | AwaitFind q k =>
      let (fault, db') := nextFault db in
      let r := answer fault (answerFind db q) in
      emit (EvFind q) (run (k r) db' hostelCache)
  | Console level args k => emit (EvConsole level args) (run k db hostelCache)
  end.

(** The store calls of a trace, and every value [hostelCache] holds in the
    course of it. *)
Fixpoint storeCalls (t : list Event) : list Event :=
  match t with
  | [] => []
  | EvCount :: r => EvCount :: storeCalls r
  | EvFind q :: r => EvFind q :: storeCalls r
  | _ :: r => storeCalls r
  end.

Fixpoint cacheValues (initial : list Hostel) (t : list Event)
  : list (list Hostel) :=
  match t with
  | [] => [initial]
  | EvAssign c :: r => initial :: cacheValues c r
  | _ :: r => cacheValues initial r
  end.

(** A program with no assignment to [hostelCache]. *)
Inductive ReadOnly {A : Type} : Prog A -> Prop :=
| ro_ret a : ReadOnly (Ret a)
| ro_read k : (forall c, ReadOnly (k c)) -> ReadOnly (ReadCache k)
| ro_count k : (forall r, ReadOnly (k r)) -> ReadOnly (AwaitCount k)
| ro_find q k : (forall r, ReadOnly (k r)) -> ReadOnly (AwaitFind q k)
| ro_console level args k : ReadOnly k -> ReadOnly (Console level args k).

(** *** Responses *)

Inductive Body : Type :=
| Text (s : string)
| JsonHostel (h : Hostel)
| JsonHostels (l : list Hostel)
| JsonPage (totalPages currentPage : Js.number) (hostels : list Hostel)
| JsonMessage (message : string) (error : option Mongo.Error).

Record Response : Type := { status : Z; body : Body }.

Definition json (b : Body) : Response := {| status := 200; body := b |}.
Definition statusJson (code : Z) (b : Body) : Response :=
  {| status := code; body := b |}.
Definition statusSend (code : Z) (s : string) : Response :=
  {| status := code; body := Text s |}.

Definition findAll : FindQuery :=
  {| filter := Doc []; sort := {| sort_rating := None |};
     skip := None; limit := None |}.

(** *** The cache and its loader *)

(** [let hostelCache = []]: the cache when the process starts. *)
Definition initialCache : list Hostel := [].

Definition prefetchHostelData : Prog unit :=
  AwaitFind findAll (fun r =>
    tryAwait r
      (fun docs =>
         AssignCache docs
           (Console ConsoleLog [AText "Hostel data pre-fetched and cached"] (Ret tt)))
      (fun error =>
         Console ConsoleError [AText "Error pre-fetching hostel data:"; AError error]
           (Ret tt))).

(** *** Start-up: [mongoose.connect(mongoURI).then(...).catch(...)]

    [connection] is how the promise of [mongoose.connect] settles. *)
Definition startup (connection : Settled unit) : Prog unit :=
  match connection with
  | Fulfilled _ =>
      Console ConsoleLog [AText "MongoDB connected"] prefetchHostelData
  | Rejected err =>
      Console ConsoleError [AText "MongoDB connection error:"; AError err]
        (Ret tt)
  end.

(** *** [GET /hostel/:name] *)

Definition get_hostel_name (hostelName : string) : Prog Response :=
  ReadCache (fun hostelCache =>
    match List.find (fun h => String.eqb (name h) hostelName) hostelCache with
    | Some hostel => Ret (json (JsonHostel hostel))
    | None => Ret (statusSend 404 "Hostel not found")
    end).

(** *** [GET /hostel-data] *)

Definition get_hostel_data (page_param limit_param : option string)
  : Prog Response :=
  let page :=
    Js.orDefault (Js.parseInt (Js.ToString page_param)) (Js.integer 1) in
  let limit :=
    Js.orDefault (Js.parseInt (Js.ToString limit_param)) (Js.integer 5) in
  let skip := Js.mul (Js.sub page (Js.integer 1)) limit in
  let catch error :=
    Console ConsoleError [AText "Error fetching hostel data:"; AError error]
      (Ret (statusJson 500
              (JsonMessage "Error fetching hostel data" (Some error)))) in
  AwaitCount (fun r1 =>
    tryAwait r1
      (fun totalHostels =>
         AwaitFind {| filter := Doc []; sort := {| sort_rating := None |};
                      skip := Some skip; limit := Some limit |}
           (fun r2 =>
              tryAwait r2
                (fun hostels =>
                   Ret (json (JsonPage
                                (Js.Math_ceil (Js.div totalHostels limit))
                                page hostels)))
                catch))
      catch).

(** *** [GET /hostels] *)

(** The [catch] block. *)
Definition hostels_catch (error : Mongo.Error) : Prog Response :=
  Console ConsoleError
    [AText "Error fetching filtered hostel data:"; AError error]
    (Ret (statusJson 500
            (JsonMessage "Error fetching filtered hostel data" (Some error)))).

(** From [console.log('Query:', query)] to the answer. *)
Definition hostels_find (query : list (string * Cond)) (sort : Sort)
  : Prog Response :=
  Console ConsoleLog [AText "Query:"; AQuery query]
    (AwaitFind {| filter := Doc query; sort := sort;
                  skip := None; limit := None |}
       (fun r =>
          tryAwait r
            (fun filteredHostels =>
               Console ConsoleLog
                 [AText "Found ";
                  ACount (Z.of_nat (List.length filteredHostels));
                  AText " hostels matching the query."]
                 (Ret (json (JsonHostels filteredHostels))))
            hostels_catch)).

(** From [let sort = {}] on, [query] holding what the category put in. *)
Definition hostels_rating (rating_param : option string)
  (query : list (string * Cond)) : Prog Response :=
  if Js.truthy rating_param then
    let rating := Js.ToString rating_param in
    if String.eqb rating "low-to-high" then
      Console ConsoleLog [AText "Sorting by rating: low-to-high"]
        (hostels_find query {| sort_rating := Some Ascending |})
    else if String.eqb rating "high-to-low" then
      Console ConsoleLog [AText "Sorting by rating: high-to-low"]
        (hostels_find query {| sort_rating := Some Descending |})
    else
      let parsedRating := Js.parseFloat rating in
      if negb (Js.isNaN parsedRating) then
        Console ConsoleLog [AText "Filtering by rating: "; ANumber parsedRating]
          (hostels_find (query ++ [("rating"%string, Gte parsedRating)])
             {| sort_rating := None |})
      else
        Console ConsoleWarn
          [AText "Invalid rating value provided: "; AText rating]
          (Ret (statusJson 400
                  (JsonMessage "Invalid rating value provided" None)))
  else hostels_find query {| sort_rating := None |}.

Definition get_hostels (category_param rating_param : option string)
  : Prog Response :=
  if Js.truthy category_param then
    let category := Js.ToString category_param in
    Console ConsoleLog [AText "Filtering by category: "; AText category]
      (hostels_rating rating_param [("category"%string, Equals category)])
  else hostels_rating rating_param [].

(** *** [POST /search] *)

Definition post_search (query : string) : Prog Response :=
  AwaitFind {| filter := Or [[("location"%string, Regex query "i")];
                             [("name"%string, Regex query "i")]];
               sort := {| sort_rating := None |};
               skip := None; limit := None |}
    (fun r =>
       tryAwait r
         (fun searchResults => Ret (json (JsonHostels searchResults)))
         (fun error =>
            Console ConsoleError [AText "Error performing search:"; AError error]
              (Ret (statusJson 500
                      (JsonMessage "Error performing search" (Some error)))))).

(** *** [GET /hostel-limit] *)

Definition get_hostel_limit (limit_param : option string) : Prog Response :=
  let limit :=
    Js.orDefault (Js.parseInt (Js.ToString limit_param)) (Js.integer 5) in
  ReadCache (fun hostelCache =>
    let limitedHostels := Js.slice hostelCache (Js.integer 0) limit in
    Ret (json (JsonHostels limitedHostels))).

(** *** Routing *)

Inductive Request : Type :=
| GetRoot
| GetAbout
| GetHostelName (name : string)
| GetHostelData (page limit : option string)
| GetHostels (category rating : option string)
| PostSearch (query : string)
| GetHostelLimit (limit : option string).

Definition handle (req : Request) : Prog Response :=
  match req with
  | GetRoot => Ret (statusSend 200 "Hello World")
  | GetAbout => Ret (statusSend 200 "This is the About page")
  | GetHostelName hostelName => get_hostel_name hostelName
  | GetHostelData page limit => get_hostel_data page limit
  | GetHostels category rating => get_hostels category rating
  | PostSearch query => post_search query
  | GetHostelLimit limit => get_hostel_limit limit
  end.

(** ** Notions used to state the properties *)

(** The store answers the next [n] calls. *)
Fixpoint healthy (n : nat) (fs : list (option Mongo.Error)) : bool :=
  match n, fs with
  | O, _ => true
  | S _, [] => true
  | S m, None :: rest => healthy m rest
  | S _, Some _ :: _ => false
  end.

(** The next store call fails with [e]. *)
Definition failsWith (e : Mongo.Error) (db : Db) : Prop :=
  hd None (faults db) = Some e.

(** Containment of one string in another, letter case ignored. *)
Fixpoint lowerString (s : string) : string :=
  match s with
  | EmptyString => EmptyString
  | String c r => String (lower c) (lowerString r)
  end.

Fixpoint startsWith (s p : string) : bool :=
  match p, s with
  | EmptyString, _ => true
  | String _ _, EmptyString => false
  | String a p', String b s' => Ascii.eqb a b && startsWith s' p'
  end.

Fixpoint includes (s needle : string) : bool :=
  startsWith s needle
  || match s with
     | String _ t => includes t needle
     | EmptyString => false
     end.

Definition includesIgnoringCase (s needle : string) : bool :=
  includes (lowerString s) (lowerString needle).

(** A query with no character that a regular expression reads specially. *)
Definition literal (query : string) : bool :=
  forallb (fun c => negb (metachar c)) (list_ascii_of_string query).

(** Order of ratings, a missing rating being lowest. *)
Definition rating_le (a b : option Q) : Prop :=
  match a, b with
  | None, _ => True
  | Some _, None => False
  | Some x, Some y => (x <= y)%Q
  end.

Definition nonDecreasing (l : list Hostel) : Prop :=
  StronglySorted (fun a b => rating_le (rating a) (rating b)) l.

Definition nonIncreasing (l : list Hostel) : Prop :=
  StronglySorted (fun a b => rating_le (rating b) (rating a)) l.

(** [v <= q] for a number [v] that is not [NaN]. *)
Definition number_le (v : Js.number) (q : Q) : Prop :=
  match v with
  | Js.NaN => False
  | Js.Infinity negative => negative = true
  | Js.Num x => (x <= q)%Q
  end.

(** A decimal integer written out: an optional minus sign and digits. *)
Definition digitChar (d : Z) : ascii := ascii_of_N (Z.to_N (48 + d)).

Fixpoint numeralDigits (ds : list Z) : string :=
  match ds with
  | [] => EmptyString
  | d :: r => String (digitChar d) (numeralDigits r)
  end.

Definition numeral (negative : bool) (ds : list Z) : string :=
  if negative then String "-" (numeralDigits ds) else numeralDigits ds.

Definition numeralValue (ds : list Z) : Z :=
  fold_left (fun acc d => acc * 10 + d) ds 0.

Definition isDigits (ds : list Z) : Prop :=
  ds <> [] /\ Forall (fun d => 0 <= d <= 9) ds.

(** The category condition [GET /hostels] puts in its filter. *)
Definition categoryFields (category_param : option string)
  : list (string * Cond) :=
  if Js.truthy category_param
  then [("category"%string, Equals (Js.ToString category_param))]
  else [].

Definition inCategory (category_param : option string) (h : Hostel) : bool :=
  if Js.truthy category_param
  then String.eqb (category h) (Js.ToString category_param)
  else true.

(** The rating condition [GET /hostels] puts in its filter, on a record. *)
Definition ratingAtLeast (v : Js.number) (h : Hostel) : bool :=
  match rating h with
  | Some q => number_leb v q
  | None => false
  end.

(** The query of [GET /hostel-data], for the page and the limit it goes
    on with. *)
Definition pageQuery (page limit : Js.number) : FindQuery :=
  {| filter := Doc []; sort := {| sort_rating := None |};
     skip := Some (Js.mul (Js.sub page (Js.integer 1)) limit);
     limit := Some limit |}.

(** The largest integer up to which every integer is a binary64 value. *)
Definition safe : Z := 2 ^ 53.

(** A string that starts no integer: after its leading white space comes
    nothing, or a character that is no sign and no decimal digit. *)
Definition startsNoNumber (s : string) : Prop :=
  match Js.trimStart s with
  | EmptyString => True
  | String c _ =>
      c <> "-"%char /\ c <> "+"%char /\ Js.digitIn 10 c = None
  end.

(** How [parseInt(param) || default] comes to [value]: the default when the
    parameter is absent or starts no integer, and when the integer read is
    0; otherwise the number read, which for a decimal numeral of a safe
    integer is that integer.  It is never [NaN] nor 0. *)
Definition readsParameter (param : option string) (default : Z)
  (value : Js.number) : Prop :=
  value = match Js.parseInt (Js.ToString param) with
          | Js.NaN => Js.integer default
          | Js.Infinity negative => Js.Infinity negative
          | Js.Num q => if Qeq_bool q 0 then Js.integer default else Js.Num q
          end
  /\ (param = None -> value = Js.integer default)
  /\ (forall s, param = Some s -> startsNoNumber s ->
                value = Js.integer default)
  /\ (forall negative ds,
         isDigits ds -> numeralValue ds <= safe ->
         param = Some (numeral negative ds) ->
         value = if numeralValue ds =? 0 then Js.integer default
                 else Js.integer (Js.applySign negative (numeralValue ds)))
  /\ value <> Js.NaN /\ value <> Js.integer 0.

(** What a run answered: its value, the final cache and its store calls. *)
Definition answered {A : Type} (r : option (Outcome A)) (v : A)
  (c : list Hostel) (calls : list Event) : Prop :=
  exists o, r = Some o /\ value o = v /\ cache o = c
            /\ storeCalls (trace o) = calls.

(** The rating parameter passes the validation of [GET /hostels]: it is
    falsy, one of the two tokens, or starts with a number. *)
Definition ratingAccepted (rating_param : option string) : bool :=
  negb (Js.truthy rating_param)
  || String.eqb (Js.ToString rating_param) "low-to-high"
  || String.eqb (Js.ToString rating_param) "high-to-low"
  || negb (Js.isNaN (Js.parseFloat (Js.ToString rating_param))).

(** The requests whose handler gets to a store call. *)
Definition reachesStore (req : Request) : bool :=
  match req with
  | GetHostelData _ _ => true
  | GetHostels _ rating_param => ratingAccepted rating_param
  | PostSearch _ => true
  | _ => false
  end.

(** The records of an answer, for an array and for a page. *)
Definition hostelsOf (r : option (Outcome Response)) : list Hostel :=
  match r with
  | Some o =>
      match body (value o) with
      | JsonHostels l => l
      | JsonPage _ _ l => l
      | _ => []
      end
  | None => []
  end.

(** What follows a number in a string: nothing, or a character that is no
    digit, no dot and no exponent mark. *)
Definition endsNumber (s : string) : Prop :=
  match s with
  | EmptyString => True
  | String c _ =>
      Js.digitIn 10 c = None /\ c <> "."%char /\ c <> "e"%char
      /\ c <> "E"%char
  end.

(** *** Sample documents *)

Definition sampleHostel (n l c : string) (r : option Q) : Hostel :=
  {| name := n; images := []; location := l; description := None;
     category := c; rating := r; rooms := [] |}.

Definition hilltop : Hostel := sampleHostel "Hilltop" "Lahore" "boys" (Some (3 # 1)).
Definition northStar : Hostel :=
  sampleHostel "North Star" "Karachi" "girls" (Some (45 # 10)).
Definition quiet : Hostel := sampleHostel "Quiet" "Northern Area" "co-ed" None.
Definition base : Hostel := sampleHostel "Base" "Multan" "boys" (Some (2 # 1)).

Definition sampleDb : Db :=
  {| collection := [hilltop; northStar; quiet; base]; faults := [];
     beyond := fun _ => Fulfilled [] |}.

Definition downDb : Db :=
  {| collection := [hilltop; northStar; quiet; base];
     faults := [Some "connection lost"%string];
     beyond := fun _ => Fulfilled [] |}.

(** *** Proof automation *)

Ltac read_only :=
  repeat first
    [ progress intros
    | constructor
    | match goal with
      | |- ReadOnly (tryAwait ?r _ _) => destruct r; cbn [tryAwait]
      | |- ReadOnly (if ?b then _ else _) => destruct b
      | |- ReadOnly (match ?x with _ => _ end) => destruct x
      end ].

(** Case analysis on a decimal digit bounded by [H : 0 <= d <= 9]. *)
Ltac each_digit H :=
  match type of H with
  | 0 <= ?d <= 9 =>
      let E := fresh "E" in
      assert (d = 0 \/ d = 1 \/ d = 2 \/ d = 3 \/ d = 4 \/ d = 5 \/ d = 6
              \/ d = 7 \/ d = 8 \/ d = 9) as E by lia;
      clear H;
      repeat (destruct E as [E|E]; [subst|]); subst
  end.

(** Stepping through the run [H] of a handler, by cases on what the store
    answers and on the tests of the handler. *)
Ltac step_run H :=
  repeat first
    [ progress cbn [run answer tryAwait emit] in H
    | discriminate H
    | match type of H with
      | context [nextFault ?d] => destruct (nextFault d) as [[?|] ?]
      | context [answerFind ?d ?q] => destruct (answerFind d q) as [?|?]
      | context [List.find ?f ?l] => destruct (List.find f l)
      | context [if ?b then _ else _] => destruct b eqn:?
      end ].

Ltac rating_facts :=
  unfold reachesStore, ratingAccepted;
  repeat match goal with
         | E : ?x = _ |- context [?x] => rewrite E
         end;
  simpl; rewrite ?orb_true_r; reflexivity.

(** ** Properties *)

(** *** The built-ins on concrete inputs *)

Example parseInt_leading_integer : Js.parseInt "12abc" = Js.integer 12.
Proof. vm_compute. reflexivity. Qed.

Example parseInt_hexadecimal : Js.parseInt "  -0x1A" = Js.integer (-26).
Proof. vm_compute. reflexivity. Qed.

Example parseInt_undefined : Js.parseInt (Js.ToString None) = Js.NaN.
Proof. reflexivity. Qed.

Example parseInt_fraction : Js.parseInt "2.9" = Js.integer 2.
Proof. vm_compute. reflexivity. Qed.

Example parseInt_no_break_space :
  Js.parseInt (String (ascii_of_N 194) (String (ascii_of_N 160) "7"))
  = Js.integer 7
  /\ Js.parseInt (String (ascii_of_N 160) "7") = Js.integer 7.
Proof. split; vm_compute; reflexivity. Qed.

Example parseInt_rounds :
  Js.parseInt "9007199254740993" = Js.integer 9007199254740992.
Proof. vm_compute. reflexivity. Qed.

Example parseFloat_integer : Js.parseFloat "3" = Js.integer 3.
Proof. vm_compute. reflexivity. Qed.

Example parseFloat_fraction : Js.parseFloat "2.50" = Js.Num (5 # 2).
Proof. vm_compute. reflexivity. Qed.

Example parseFloat_exponent : Js.parseFloat "-.5e1x" = Js.integer (-5).
Proof. vm_compute. reflexivity. Qed.

Example parseFloat_rounds :
  Js.parseFloat "0.30000000000000001" = Js.parseFloat "0.3"
  /\ Js.parseFloat "0.3" = Js.Num (5404319552844595 # 18014398509481984).
Proof. split; vm_compute; reflexivity. Qed.

Example parseFloat_overflow : Js.parseFloat "1e400" = Js.Infinity false.
Proof. vm_compute. reflexivity. Qed.

Example parseFloat_underflow : Js.parseFloat "1e-400" = Js.integer 0.
Proof. vm_compute. reflexivity. Qed.

Example parseFloat_no_break_space :
  Js.parseFloat (String (ascii_of_N 194) (String (ascii_of_N 160) "3"))
  = Js.integer 3.
Proof. vm_compute. reflexivity. Qed.

Example parseFloat_word : Js.parseFloat "banana" = Js.NaN.
Proof. reflexivity. Qed.

Example parseFloat_empty : Js.parseFloat "" = Js.NaN.
Proof. reflexivity. Qed.

Example parseFloat_infinity : Js.parseFloat "-Infinity" = Js.Infinity true.
Proof. reflexivity. Qed.

Example slice_negative_end :
  Js.slice [1; 2; 3] (Js.integer 0) (Js.integer (-1)) = [1; 2].
Proof. reflexivity. Qed.

Example slice_past_end :
  Js.slice [1; 2; 3] (Js.integer 0) (Js.integer 5) = [1; 2; 3].
Proof. reflexivity. Qed.

(** *** Rounding to binary64 *)

Lemma pow2_pos (k : Z) : (0 < 2 ^ k)%Q.
Proof. apply Qpower_0_lt. reflexivity. Qed.

Lemma pow2_add (a b : Z) : (2 ^ (a + b) == 2 ^ a * 2 ^ b)%Q.
Proof. apply Qpower_plus. discriminate. Qed.

Lemma pow2_Z (k : Z) : 0 <= k -> (2 ^ k == inject_Z (2 ^ k))%Q.
Proof. intros H. symmetry. apply (Zpower_Qpower 2 k H). Qed.

Lemma pow2_cancel (k : Z) : (2 ^ (- k) * 2 ^ k == 1)%Q.
Proof. rewrite <- pow2_add. replace (- k + k) with 0 by lia. reflexivity. Qed.

Lemma pow2_lt_inv (a b : Z) : (2 ^ a < 2 ^ b)%Q -> a < b.
Proof. intros H. apply (Qpower_lt_compat_l_inv 2 a b H). reflexivity. Qed.

Lemma pow2_le (a b : Z) : a <= b -> (2 ^ a <= 2 ^ b)%Q.
Proof. intros H. apply Qpower_le_compat_l; [exact H | discriminate]. Qed.

Lemma ilog2_spec (a : Q) :
  (0 < a)%Q -> (2 ^ Js.ilog2 a <= a)%Q /\ (a < 2 ^ (Js.ilog2 a + 1))%Q.
Proof.
  intros Ha. destruct a as [n d]. unfold Js.ilog2. cbn [Qnum Qden].
  assert (Hn : 0 < n).
  { unfold Qlt in Ha. simpl in Ha. lia. }
  destruct (Z.log2_spec n Hn) as [Hn1 Hn2].
  destruct (Z.log2_spec (Zpos d) (Pos2Z.is_pos d)) as [Hd1 Hd2].
  set (la := Z.log2 n) in *. set (lb := Z.log2 (Zpos d)) in *.
  assert (Hla : 0 <= la) by apply Z.log2_nonneg.
  assert (Hlb : 0 <= lb) by apply Z.log2_nonneg.
  (* everything in Q *)
  assert (Q1 : (2 ^ la <= inject_Z n)%Q).
  { rewrite pow2_Z by assumption. rewrite <- Zle_Qle. exact Hn1. }
  assert (Q2 : (inject_Z n < 2 ^ (la + 1))%Q).
  { rewrite pow2_Z by lia. rewrite <- Zlt_Qlt.
    replace (la + 1) with (Z.succ la) by lia. exact Hn2. }
  assert (Q3 : (2 ^ lb <= inject_Z (Zpos d))%Q).
  { rewrite pow2_Z by assumption. rewrite <- Zle_Qle. exact Hd1. }
  assert (Q4 : (inject_Z (Zpos d) < 2 ^ (lb + 1))%Q).
  { rewrite pow2_Z by lia. rewrite <- Zlt_Qlt.
    replace (lb + 1) with (Z.succ lb) by lia. exact Hd2. }
  assert (Qa : ((n # d) * inject_Z (Zpos d) == inject_Z n)%Q).
  { rewrite (Qmake_Qdiv n d). field. discriminate. }
  assert (E1 : (2 ^ (la - lb) * 2 ^ lb == 2 ^ la)%Q).
  { rewrite <- pow2_add. replace (la - lb + lb) with la by lia. reflexivity. }
  assert (E2 : (2 ^ (la + 1) == 2 * 2 ^ la)%Q).
  { rewrite pow2_add. rewrite Qmult_comm. reflexivity. }
  assert (E3 : (2 ^ (lb + 1) == 2 * 2 ^ lb)%Q).
  { rewrite pow2_add. rewrite Qmult_comm. reflexivity. }
  assert (E4 : (2 ^ (la - lb + 1) == 2 * 2 ^ (la - lb))%Q).
  { rewrite pow2_add. rewrite Qmult_comm. reflexivity. }
  assert (E5 : (2 * 2 ^ (la - lb - 1) == 2 ^ (la - lb))%Q).
  { rewrite <- (Qmult_comm (2 ^ (la - lb - 1))).
    change 2%Q with (2 ^ 1)%Q at 2. rewrite <- pow2_add.
    replace (la - lb - 1 + 1) with (la - lb) by lia. reflexivity. }
  pose proof (pow2_pos lb) as P1. pose proof (pow2_pos (la - lb)) as P2.
  pose proof (pow2_pos (la - lb - 1)) as P3.
  set (A := (n # d)%Q) in *. set (D := inject_Z (Zpos d)) in *.
  set (N := inject_Z n) in *.
  set (X := (2 ^ (la - lb))%Q) in *. set (Y := (2 ^ lb)%Q) in *.
  set (Z1 := (2 ^ la)%Q) in *. set (W := (2 ^ (la - lb - 1))%Q) in *.
  destruct (Qle_bool X A) eqn:Hc.
  - apply Qle_bool_iff in Hc. split; [exact Hc|].
    rewrite E4. rewrite E2 in Q2. nra.
  - assert (Hlt : (A < X)%Q).
    { apply Qnot_le_lt. intros H. apply Qle_bool_iff in H. congruence. }
    replace (la - lb - 1 + 1) with (la - lb) by lia. fold X.
    split; [|exact Hlt]. fold W. rewrite E3 in Q4. nra.
Qed.

Lemma roundTiesToEven_comp (x y : Q) :
  (x == y)%Q -> Js.roundTiesToEven x = Js.roundTiesToEven y.
Proof.
  intros H. unfold Js.roundTiesToEven. rewrite (Qfloor_comp x y H).
  assert (Hc : ((x - inject_Z (Qfloor y) ?= 1 # 2)
                = (y - inject_Z (Qfloor y) ?= 1 # 2))%Q).
  { apply Qcompare_comp; [|reflexivity]. rewrite H. reflexivity. }
  rewrite Hc. reflexivity.
Qed.

Lemma roundTiesToEven_integer (x : Q) (n : Z) :
  (x == inject_Z n)%Q -> Js.roundTiesToEven x = n.
Proof.
  intros H. rewrite (roundTiesToEven_comp x (inject_Z n) H).
  unfold Js.roundTiesToEven. rewrite Qfloor_Z.
  assert (Hc : ((inject_Z n - inject_Z n ?= 1 # 2) = Lt)%Q).
  { apply (proj1 (Qlt_alt _ _)). unfold Qminus. rewrite Qplus_opp_r.
    reflexivity. }
  rewrite Hc. reflexivity.
Qed.

Lemma roundTiesToEven_fraction (X : Z) (b : positive) :
  let f := X / Zpos b in
  let r := X mod Zpos b in
  f <= Js.roundTiesToEven (X # b) <= f + 1
  /\ (Zpos b < 2 * r -> Js.roundTiesToEven (X # b) = f + 1).
Proof.
  intros f r. unfold Js.roundTiesToEven.
  change (Qfloor (X # b)) with f.
  assert (Hc : ((X # b) - inject_Z f ?= 1 # 2)%Q = (2 * r ?= Zpos b)).
  { unfold Qcompare, Qminus, Qplus, Qopp, inject_Z. cbn [Qnum Qden].
    subst r. rewrite Z.mod_eq by discriminate. fold f.
    rewrite Pos.mul_1_r.
    replace ((X * 1 + - f * Zpos b) * 2) with (2 * (X - Zpos b * f)) by ring.
    replace (1 * Zpos b) with (Zpos b) by ring. reflexivity. }
  rewrite Hc. destruct (Z.compare_spec (2 * r) (Zpos b)) as [E|E|E].
  - split; [destruct (Z.even f); lia | lia].
  - split; lia.
  - split; [lia | reflexivity].
Qed.

Lemma Qred_integer (q : Q) (z : Z) :
  (q == inject_Z z)%Q -> Qred q = inject_Z z.
Proof.
  intros H. rewrite (Qred_complete q (inject_Z z) H).
  apply Qcanon.Qred_identity. simpl. apply Z.gcd_1_r.
Qed.

Lemma roundMagnitude_integer (z : Z) :
  1 <= z <= safe -> Js.roundMagnitude (inject_Z z) = Some (inject_Z z).
Proof.
  intros [Hz1 Hz2]. unfold safe in Hz2.
  assert (Hpos : (0 < inject_Z z)%Q).
  { change 0%Q with (inject_Z 0). rewrite <- Zlt_Qlt. lia. }
  destruct (ilog2_spec (inject_Z z) Hpos) as [Hlo Hhi].
  unfold Js.roundMagnitude. cbv zeta.
  set (e := Js.ilog2 (inject_Z z)) in *.
  assert (He0 : 0 <= e).
  { assert (H : (2 ^ 0 < 2 ^ (e + 1))%Q).
    { eapply Qle_lt_trans; [|exact Hhi].
      change (2 ^ 0)%Q with (inject_Z 1). rewrite <- Zle_Qle. exact Hz1. }
    apply pow2_lt_inv in H. lia. }
  assert (He1 : e <= 53).
  { assert (H : (2 ^ e < 2 ^ 54)%Q).
    { eapply Qle_lt_trans; [exact Hlo|].
      rewrite (pow2_Z 54) by lia. rewrite <- Zlt_Qlt. lia. }
    apply pow2_lt_inv in H. lia. }
  destruct (Z.eq_dec e 53) as [E|E].
  - assert (Hz : z = 2 ^ 53).
    { rewrite E in Hlo. rewrite (pow2_Z 53) in Hlo by lia.
      rewrite <- Zle_Qle in Hlo. lia. }
    subst e. clear - Hz. subst z. vm_compute. reflexivity.
  - rewrite Z.max_l by lia.
    replace (- (e - 52)) with (52 - e) by lia.
    set (j := 52 - e). assert (Hj : 0 <= j) by (subst j; lia).
    assert (Hs : (inject_Z z * 2 ^ j == inject_Z (z * 2 ^ j))%Q).
    { rewrite (pow2_Z j Hj), inject_Z_mult. reflexivity. }
    rewrite (roundTiesToEven_integer _ _ Hs).
    assert (Hr : (inject_Z (z * 2 ^ j) * 2 ^ (e - 52) == inject_Z z)%Q).
    { rewrite <- Hs. rewrite <- Qmult_assoc.
      replace (e - 52) with (- j) by (subst j; lia).
      rewrite (Qmult_comm (2 ^ j)), pow2_cancel. apply Qmult_1_r. }
    destruct (Qle_bool (2 ^ 1024) _) eqn:Hov.
    + exfalso. apply Qle_bool_iff in Hov. rewrite Hr in Hov.
      rewrite (pow2_Z 1024) in Hov by lia. rewrite <- Zle_Qle in Hov.
      assert (2 ^ 53 < 2 ^ 1024) by (apply Z.pow_lt_mono_r; lia). lia.
    + f_equal. apply Qred_integer. exact Hr.
Qed.

Lemma round64_integer (q : Q) (z : Z) :
  (q == inject_Z z)%Q -> - safe <= z <= safe -> Js.round64 q = Js.integer z.
Proof.
  intros H Hz. unfold Js.round64. cbv zeta. rewrite (Qred_integer q z H).
  unfold Js.integer.
  destruct (Z.compare_spec z 0) as [E|E|E].
  - subst z. reflexivity.
  - assert (Hc : (inject_Z z ?= 0)%Q = Lt).
    { apply (proj1 (Qlt_alt _ _)). unfold Qlt. simpl. lia. }
    rewrite Hc. rewrite <- inject_Z_opp.
    rewrite roundMagnitude_integer by lia.
    rewrite <- inject_Z_opp. f_equal. f_equal. lia.
  - assert (Hc : (inject_Z z ?= 0)%Q = Gt).
    { apply (proj1 (Qgt_alt _ _)). unfold Qlt. simpl. lia. }
    rewrite Hc. rewrite roundMagnitude_integer by lia. reflexivity.
Qed.

Lemma roundMagnitude_between (q : Q) (a n : Z) (b : positive) :
  (q == a # b)%Q ->
  1 <= a <= safe -> Zpos b <= safe ->
  (n - 1) * Zpos b < a < n * Zpos b ->
  exists r, Js.roundMagnitude q = Some r
            /\ (inject_Z (n - 1) < r)%Q /\ (r <= inject_Z n)%Q.
Proof.
  intros Hq [Ha1 Ha2] Hb [Hn1 Hn2]. unfold safe in *.
  assert (Hn : 1 <= n <= 2 ^ 53) by nia.
  assert (Hpos : (0 < q)%Q).
  { rewrite Hq. unfold Qlt. simpl. lia. }
  destruct (ilog2_spec q Hpos) as [Hlo Hhi].
  unfold Js.roundMagnitude. cbv zeta. set (e := Js.ilog2 q) in *.
  assert (Hqn : (q < inject_Z n)%Q).
  { rewrite Hq. unfold Qlt. simpl. lia. }
  assert (Hqb : (2 ^ (-53) <= q)%Q).
  { rewrite Hq. change (2 ^ (-53))%Q with (1 # 9007199254740992)%Q.
    unfold Qle. simpl. change 9007199254740992 with (2 ^ 53). nia. }
  assert (He1 : e <= 52).
  { assert (H : (2 ^ e < 2 ^ 53)%Q).
    { eapply Qle_lt_trans; [exact Hlo|]. eapply Qlt_le_trans; [exact Hqn|].
      rewrite (pow2_Z 53) by lia. rewrite <- Zle_Qle. lia. }
    apply pow2_lt_inv in H. lia. }
  assert (He0 : -54 < e).
  { assert (H : (2 ^ (-53) < 2 ^ (e + 1))%Q).
    { eapply Qle_lt_trans; [exact Hqb | exact Hhi]. }
    apply pow2_lt_inv in H. lia. }
  rewrite Z.max_l by lia.
  replace (- (e - 52)) with (52 - e) by lia.
  set (j := 52 - e) in *. assert (Hj : 0 <= j) by (subst j; lia).
  set (J := 2 ^ j).
  assert (HJ : 0 < J) by (subst J; apply Z.pow_pos_nonneg; lia).
  assert (Hs : (q * 2 ^ j == (a * J) # b)%Q).
  { rewrite Hq, (pow2_Z j Hj). fold J. unfold Qeq, Qmult, inject_Z. simpl.
    rewrite Pos.mul_1_r. ring. }
  rewrite (roundTiesToEven_comp _ _ Hs).
  assert (H52 : 2 ^ 52 * Zpos b <= a * J).
  { assert (H : (2 ^ 52 <= q * 2 ^ j)%Q).
    { assert (E : (2 ^ 52 == 2 ^ e * 2 ^ j)%Q).
      { rewrite <- pow2_add. replace (e + j) with 52 by (subst j; lia).
        reflexivity. }
      rewrite E. apply Qmult_le_compat_r; [exact Hlo|].
      apply Qlt_le_weak, pow2_pos. }
    rewrite Hs in H. rewrite (pow2_Z 52) in H by lia.
    unfold Qle in H. simpl in H. lia. }
  destruct (roundTiesToEven_fraction (a * J) b) as [[Hm1 Hm2] Hup].
  cbv zeta in Hm1, Hm2, Hup.
  set (m := Js.roundTiesToEven (a * J # b)) in *.
  pose proof (Z.div_mod (a * J) (Zpos b) ltac:(discriminate)) as Hdm.
  pose proof (Z.mod_pos_bound (a * J) (Zpos b) ltac:(lia)) as Hmod.
  set (f := a * J / Zpos b) in *. set (rho := (a * J) mod Zpos b) in *.
  assert (Hf1 : (n - 1) * J <= f) by nia.
  assert (Hf2 : f <= n * J - 1) by nia.
  assert (Hf3 : 2 ^ 52 <= f) by nia.
  assert (Hmlo : (n - 1) * J < m).
  { destruct (Z_lt_le_dec (Zpos b) (2 * rho)) as [Hgt|Hle].
    - rewrite (Hup Hgt). lia.
    - destruct (Z.eq_dec f ((n - 1) * J)) as [Ef|Ef]; [|lia].
      exfalso.
      assert (Hrho : rho = (a - (n - 1) * Zpos b) * J) by nia.
      assert (Hone : 1 <= a - (n - 1) * Zpos b) by lia.
      assert (HbJ : Zpos b <= 2 * J).
      { assert (a * J <= 2 ^ 53 * J) by nia.
        change (2 ^ 53) with (2 * 2 ^ 52) in H. nia. }
      assert (Hb2 : Zpos b = 2 * J) by nia.
      assert (Ha : a - (n - 1) * Zpos b = 1) by nia.
      assert (a = 2 * f + 1) by nia.
      change (2 ^ 53) with (2 * 2 ^ 52) in Ha2. lia. }
  assert (Hmhi : m <= n * J) by lia.
  assert (Hr : (inject_Z m * 2 ^ (e - 52) == m # Z.to_pos J)%Q).
  { replace (e - 52) with (- j) by (subst j; lia).
    rewrite Qpower_opp, (pow2_Z j Hj). fold J.
    rewrite (Qmake_Qdiv m (Z.to_pos J)). rewrite Z2Pos.id by assumption.
    reflexivity. }
  assert (Hr1 : (inject_Z (n - 1) < inject_Z m * 2 ^ (e - 52))%Q).
  { rewrite Hr. unfold Qlt. simpl. rewrite Z2Pos.id by assumption. lia. }
  assert (Hr2 : (inject_Z m * 2 ^ (e - 52) <= inject_Z n)%Q).
  { rewrite Hr. unfold Qle. simpl. rewrite Z2Pos.id by assumption. lia. }
  destruct (Qle_bool (2 ^ 1024) _) eqn:Hov.
  - exfalso. apply Qle_bool_iff in Hov.
    assert (H : (2 ^ 1024 <= inject_Z n)%Q) by (eapply Qle_trans; eassumption).
    rewrite (pow2_Z 1024) in H by lia. rewrite <- Zle_Qle in H.
    assert (2 ^ 53 < 2 ^ 1024) by (apply Z.pow_lt_mono_r; lia). lia.
  - eexists. split; [reflexivity|]. rewrite Qred_correct. split; assumption.
Qed.

Lemma Qceiling_between (r : Q) (n : Z) :
  (inject_Z (n - 1) < r)%Q -> (r <= inject_Z n)%Q -> Qceiling r = n.
Proof.
  intros H1 H2.
  pose proof (Qceiling_resp_le _ _ H2) as Hle. rewrite Qceiling_Z in Hle.
  pose proof (Qle_ceiling r) as Hge.
  assert (H : (inject_Z (n - 1) < inject_Z (Qceiling r))%Q)
    by (eapply Qlt_le_trans; eassumption).
  rewrite <- Zlt_Qlt in H. lia.
Qed.

Lemma div_ceil (a b : Z) :
  0 <= a <= safe -> 1 <= b <= safe ->
  Js.Math_ceil (Js.div (Js.integer a) (Js.integer b))
  = Js.integer (- (- a / b)).
Proof.
  intros [Ha1 Ha2] [Hb1 Hb2]. unfold Js.integer, Js.div.
  assert (Hb : (inject_Z b ?= 0)%Q = Gt).
  { apply (proj1 (Qgt_alt _ _)). unfold Qlt. simpl. lia. }
  rewrite Hb.
  set (n := - (- a / b)).
  pose proof (Z.div_mod (- a) b ltac:(lia)) as Hdm.
  pose proof (Z.mod_pos_bound (- a) b ltac:(lia)) as Hmod.
  assert (Hn : (n - 1) * b < a <= n * b) by (subst n; nia).
  destruct b as [|pb|pb]; try lia.
  assert (Hq : (inject_Z a / inject_Z (Zpos pb) == a # pb)%Q).
  { symmetry. apply Qmake_Qdiv. }
  destruct (Z.eq_dec a (n * Zpos pb)) as [E|E].
  - assert (Hi : (inject_Z a / inject_Z (Zpos pb) == inject_Z n)%Q).
    { rewrite Hq. unfold Qeq. simpl. lia. }
    rewrite (round64_integer _ n Hi) by (unfold safe in *; nia).
    unfold Js.integer, Js.Math_ceil. rewrite Qceiling_Z. reflexivity.
  - assert (Ha : 1 <= a).
    { destruct (Z.eq_dec a 0) as [Ea|Ea]; [|lia]. exfalso. apply E.
      assert (n = 0) by nia. subst n. lia. }
    unfold Js.round64. cbv zeta.
    set (q := Qred (inject_Z a / inject_Z (Zpos pb))).
    assert (Hq' : (q == a # pb)%Q).
    { subst q. rewrite Qred_correct. exact Hq. }
    assert (Hc : (q ?= 0)%Q = Gt).
    { apply (proj1 (Qgt_alt _ _)). rewrite Hq'. unfold Qlt. simpl. lia. }
    rewrite Hc.
    destruct (roundMagnitude_between q a n pb Hq') as (r & Hr & Hr1 & Hr2);
      [lia | lia | lia |].
    rewrite Hr. unfold Js.Math_ceil.
    rewrite (Qceiling_between r n Hr1 Hr2). reflexivity.
Qed.

Lemma sub_integer (a b : Z) :
  - safe <= a - b <= safe ->
  Js.sub (Js.integer a) (Js.integer b) = Js.integer (a - b).
Proof.
  intros H. unfold Js.sub, Js.integer. apply round64_integer; [|exact H].
  unfold Qminus. rewrite <- inject_Z_opp, <- inject_Z_plus. reflexivity.
Qed.

Lemma mul_integer (a b : Z) :
  - safe <= a * b <= safe ->
  Js.mul (Js.integer a) (Js.integer b) = Js.integer (a * b).
Proof.
  intros H. unfold Js.mul, Js.integer. apply round64_integer; [|exact H].
  rewrite <- inject_Z_mult. reflexivity.
Qed.

Lemma ofInteger_safe (z : Z) :
  - safe <= z <= safe -> Js.ofInteger z = Js.integer z.
Proof. intros H. apply round64_integer; [reflexivity | exact H]. Qed.

(** *** Running programs *)

Lemma emit_some {A : Type} (e : Event) (r : option (Outcome A)) (o : Outcome A) :
  emit e r = Some o ->
  exists o', r = Some o' /\ value o = value o' /\ cache o = cache o'
             /\ trace o = e :: trace o'.
Proof.
  destruct r as [o'|]; simpl; intros H; [|discriminate].
  injection H as <-. exists o'. simpl. auto.
Qed.

Lemma nextFault_healthy (n : nat) (db : Db) :
  healthy (S n) (faults db) = true ->
  exists db', nextFault db = (None, db')
              /\ collection db' = collection db
              /\ healthy n (faults db') = true.
Proof.
  destruct db as [docs fs]. unfold nextFault. simpl.
  destruct fs as [|[e|] rest]; simpl; intros H; try discriminate.
  - eexists; split; [reflexivity|]. simpl. split; [reflexivity|].
    destruct n; reflexivity.
  - eexists; split; [reflexivity|]. simpl. auto.
Qed.

Lemma nextFault_failsWith (e : Mongo.Error) (db : Db) :
  failsWith e db -> exists db', nextFault db = (Some e, db').
Proof.
  destruct db as [docs fs]. unfold failsWith, nextFault. simpl.
  destruct fs as [|f rest]; simpl; intros H; [discriminate|].
  subst f. eexists; reflexivity.
Qed.

(** A read-only program leaves [hostelCache] as it found it, and the
    variable holds no other value on the way. *)
Lemma run_ReadOnly {A : Type} (p : Prog A) :
  ReadOnly p ->
  forall db c o, run p db c = Some o ->
                 cache o = c /\ cacheValues c (trace o) = [c].
Proof.
  induction 1 as [a|k Hk IH|k Hk IH|q k Hk IH|level args k Hk IH];
    intros db c o Hrun; simpl in Hrun.
  - injection Hrun as <-. simpl. auto.
  - eapply IH; eassumption.
  - destruct (nextFault db) as [fault db']. cbv zeta in Hrun.
    apply emit_some in Hrun as (o' & Ho' & _ & Hc & Ht).
    apply IH in Ho' as [Hc' Hv]. rewrite Hc, Ht, Hc'. simpl. auto.
  - destruct (nextFault db) as [fault db']. cbv zeta in Hrun.
    apply emit_some in Hrun as (o' & Ho' & _ & Hc & Ht).
    apply IH in Ho' as [Hc' Hv]. rewrite Hc, Ht, Hc'. simpl. auto.
  - apply emit_some in Hrun as (o' & Ho' & _ & Hc & Ht).
    apply IH in Ho' as [Hc' Hv]. rewrite Hc, Ht, Hc'. simpl. auto.
Qed.

(** Every program runs to an outcome: the store settles every call. *)
Lemma run_total {A : Type} (p : Prog A) :
  forall db c, exists o, run p db c = Some o.
Proof.
  induction p as [a|k IH|c' k IH|k IH|q k IH|level args k IH];
    intros db c; cbn [run].
  - eauto.
  - apply IH.
  - destruct (IH db c') as [o ->]. simpl. eauto.
  - destruct (nextFault db) as [fault db']. cbv zeta.
    destruct (IH (answer fault
                    (Fulfilled (countDocuments (collection db)))) db' c)
      as [o ->].
    simpl. eauto.
  - destruct (nextFault db) as [fault db']. cbv zeta.
    destruct (IH (answer fault (answerFind db q)) db' c) as [o ->].
    simpl. eauto.
  - destruct (IH db c) as [o ->]. simpl. eauto.
Qed.

Lemma get_hostel_name_ReadOnly (hostelName : string) :
  ReadOnly (get_hostel_name hostelName).
Proof. unfold get_hostel_name. read_only. Qed.

Lemma get_hostel_data_ReadOnly (page_param limit_param : option string) :
  ReadOnly (get_hostel_data page_param limit_param).
Proof. unfold get_hostel_data. cbv zeta. read_only. Qed.

Lemma get_hostels_ReadOnly (category_param rating_param : option string) :
  ReadOnly (get_hostels category_param rating_param).
Proof.
  unfold get_hostels, hostels_rating, hostels_find, hostels_catch.
  cbv zeta. read_only.
Qed.

Lemma post_search_ReadOnly (query : string) : ReadOnly (post_search query).
Proof. unfold post_search. read_only. Qed.

Lemma get_hostel_limit_ReadOnly (limit_param : option string) :
  ReadOnly (get_hostel_limit limit_param).
Proof. unfold get_hostel_limit. cbv zeta. read_only. Qed.

(** *** [Array.prototype.find] and [slice] *)

Lemma find_first {A : Type} (f : A -> bool) (l : list A) :
  match List.find f l with
  | Some x => exists before after,
      l = before ++ x :: after /\ f x = true
      /\ Forall (fun y => f y = false) before
  | None => Forall (fun y => f y = false) l
  end.
Proof.
  induction l as [|a l IH]; simpl.
  - constructor.
  - destruct (f a) eqn:Ha.
    + exists [], l. simpl. auto.
    + destruct (List.find f l) as [x|].
      * destruct IH as (before & after & -> & Hx & Hb).
        exists (a :: before), after. simpl. auto.
      * constructor; assumption.
Qed.

Lemma firstn_min_length {A : Type} (n : nat) (l : list A) :
  firstn (Nat.min n (List.length l)) l = firstn n l.
Proof.
  destruct (Nat.le_ge_cases n (List.length l)) as [H|H].
  - rewrite Nat.min_l by assumption. reflexivity.
  - rewrite Nat.min_r by assumption.
    rewrite firstn_all. symmetry. apply firstn_all2. assumption.
Qed.

Lemma slice_positive {A : Type} (l : list A) (n : Z) :
  0 < n -> Js.slice l (Js.integer 0) (Js.integer n) = firstn (Z.to_nat n) l.
Proof.
  intros Hn. unfold Js.slice, Js.ToIntegerOrInfinity, Js.integer, inject_Z.
  cbn [Qnum Qden]. rewrite !Z.quot_1_r. unfold Js.relativeIndex.
  assert (H0 : 0 <= Z.of_nat (List.length l)) by lia.
  replace (0 <? 0) with false by reflexivity.
  replace (n <? 0) with false by (symmetry; apply Z.ltb_ge; lia).
  rewrite (Z.min_l 0) by assumption. rewrite Z.sub_0_r. simpl skipn.
  rewrite Z2Nat.inj_min, Nat2Z.id. apply firstn_min_length.
Qed.

Lemma slice_negative {A : Type} (l : list A) (n : Z) :
  n < 0 ->
  Js.slice l (Js.integer 0) (Js.integer n)
  = firstn (List.length l - Z.to_nat (- n)) l.
Proof.
  intros Hn. unfold Js.slice, Js.ToIntegerOrInfinity, Js.integer, inject_Z.
  cbn [Qnum Qden]. rewrite !Z.quot_1_r. unfold Js.relativeIndex.
  assert (H0 : 0 <= Z.of_nat (List.length l)) by lia.
  replace (0 <? 0) with false by reflexivity.
  replace (n <? 0) with true by (symmetry; apply Z.ltb_lt; lia).
  rewrite (Z.min_l 0) by assumption. rewrite Z.sub_0_r. simpl skipn.
  f_equal. lia.
Qed.

Lemma slice_infinity {A : Type} (l : list A) (negative : bool) :
  Js.slice l (Js.integer 0) (Js.Infinity negative)
  = if negative then [] else l.
Proof.
  unfold Js.slice, Js.ToIntegerOrInfinity, Js.integer, inject_Z.
  cbn [Qnum Qden]. rewrite Z.quot_1_r. unfold Js.relativeIndex.
  replace (0 <? 0) with false by reflexivity.
  rewrite (Z.min_l 0) by lia. simpl skipn. destruct negative.
  - reflexivity.
  - rewrite Z.sub_0_r, Nat2Z.id. apply firstn_all.
Qed.

Lemma orDefault_value (n : Js.number) (d : Z) :
  d <> 0 ->
  Js.orDefault n (Js.integer d) <> Js.NaN
  /\ Js.orDefault n (Js.integer d) <> Js.integer 0.
Proof.
  intros Hd.
  assert (H0 : Js.integer d <> Js.integer 0).
  { unfold Js.integer, inject_Z. intros E. injection E as E. contradiction. }
  unfold Js.orDefault. destruct n as [|negative|q].
  - split; [discriminate | exact H0].
  - split; discriminate.
  - destruct (Qeq_bool q 0) eqn:E.
    + split; [discriminate | exact H0].
    + split; [discriminate|]. intros Eq. injection Eq as Eq. subst q.
      discriminate E.
Qed.

Lemma handle_ReadOnly (req : Request) : ReadOnly (handle req).
Proof.
  destruct req; simpl;
    auto using get_hostel_name_ReadOnly, get_hostel_data_ReadOnly,
      get_hostels_ReadOnly, post_search_ReadOnly, get_hostel_limit_ReadOnly;
    constructor.
Qed.

Lemma filter_all {A : Type} (l : list A) : List.filter (fun _ => true) l = l.
Proof. induction l as [|a l IH]; simpl; congruence. Qed.

Lemma find_findAll (docs : list Hostel) :
  find docs findAll = Some (Fulfilled docs).
Proof. unfold find, findAll. simpl. rewrite filter_all. reflexivity. Qed.

(** *** The cache loader *)

Lemma run_prefetch_answered (db : Db) (c : list Hostel) :
  healthy 1 (faults db) = true ->
  run prefetchHostelData db c
  = Some {| value := tt; cache := collection db;
            trace := [EvFind findAll; EvAssign (collection db);
                      EvConsole ConsoleLog
                        [AText "Hostel data pre-fetched and cached"]] |}.
Proof.
  intros H. apply nextFault_healthy in H as (db' & Hn & _ & _).
  unfold prefetchHostelData. cbn [run]. rewrite Hn. cbn [answer].
  unfold answerFind. rewrite find_findAll. reflexivity.
Qed.

Lemma run_prefetch_failed (db : Db) (c : list Hostel) (e : Mongo.Error) :
  failsWith e db ->
  run prefetchHostelData db c
  = Some {| value := tt; cache := c;
            trace := [EvFind findAll;
                      EvConsole ConsoleError
                        [AText "Error pre-fetching hostel data:"; AError e]] |}.
Proof.
  intros H. apply nextFault_failsWith in H as (db' & Hn).
  unfold prefetchHostelData. simpl. rewrite Hn. reflexivity.
Qed.

Lemma healthy_or_fails (db : Db) :
  healthy 1 (faults db) = true \/ exists e, failsWith e db.
Proof.
  unfold failsWith. destruct (faults db) as [|[e|] rest]; simpl; eauto.
Qed.

(** C3: when the loader's store read fails, [hostelCache] keeps its prior
    value, the error is logged and the loader returns normally; whatever the
    store answers, [hostelCache] only ever holds its prior value or the
    whole result of the read. *)
Theorem prefetch_failure_keeps_cache (db : Db) (hostelCache : list Hostel) :
  exists o,
    run prefetchHostelData db hostelCache = Some o
    /\ value o = tt
    /\ (forall v, In v (cacheValues hostelCache (trace o)) ->
                  v = hostelCache \/ v = collection db)
    /\ (forall e, failsWith e db ->
          cache o = hostelCache
          /\ cacheValues hostelCache (trace o) = [hostelCache]
          /\ trace o = [EvFind findAll;
                        EvConsole ConsoleError
                          [AText "Error pre-fetching hostel data:";
                           AError e]]).
Proof.
  destruct (healthy_or_fails db) as [H|[e H]].
  - rewrite (run_prefetch_answered db hostelCache H).
    eexists; split; [reflexivity|]. simpl. split; [reflexivity|]. split.
    + intros v [<-|[<-|[]]]; auto.
    + intros e He. exfalso. unfold failsWith in He.
      destruct (faults db) as [|[e'|] rest]; simpl in *; discriminate.
  - rewrite (run_prefetch_failed db hostelCache e H).
    eexists; split; [reflexivity|]. simpl. split; [reflexivity|]. split.
    + intros v [<-|[]]; auto.
    + intros e' He'. unfold failsWith in *. rewrite H in He'.
      injection He' as <-. auto.
Qed.

Lemma prefetch_failure_keeps_cache_witness :
  exists o,
    run prefetchHostelData downDb initialCache = Some o
    /\ cache o = []
    /\ trace o = [EvFind findAll;
                  EvConsole ConsoleError
                    [AText "Error pre-fetching hostel data:";
                     AError "connection lost"%string]].
Proof.
  destruct (prefetch_failure_keeps_cache downDb initialCache)
    as (o & Hrun & _ & _ & Hfail).
  exists o. split; [exact Hrun|].
  destruct (Hfail "connection lost"%string) as (Hc & _ & Ht);
    [reflexivity|]. split; assumption.
Defined.

(** *** [GET /hostel/:name] *)

(** C9: the lookup scans [hostelCache] for the first record whose name
    equals the path segment and answers it as JSON; with no such record it
    answers 404 with the text "Hostel not found".  The record is answered
    exactly when some cached record has that name. *)
Theorem hostel_by_name_found_iff_cached
  (hostelName : string) (db : Db) (hostelCache : list Hostel) :
  exists o,
    run (get_hostel_name hostelName) db hostelCache = Some o
    /\ trace o = [] /\ cache o = hostelCache
    /\ ((exists before hostel after,
            hostelCache = before ++ hostel :: after
            /\ name hostel = hostelName
            /\ Forall (fun h => name h <> hostelName) before
            /\ value o = json (JsonHostel hostel))
        \/ (Forall (fun h => name h <> hostelName) hostelCache
            /\ value o = statusSend 404 "Hostel not found"))
    /\ (status (value o) = 200
        <-> exists h, In h hostelCache /\ name h = hostelName).
Proof.
  unfold get_hostel_name. simpl.
  pose proof (find_first (fun h => String.eqb (name h) hostelName) hostelCache)
    as Hfind.
  destruct (List.find _ hostelCache) as [hostel|].
  - destruct Hfind as (before & after & Heq & Hname & Hbefore).
    apply String.eqb_eq in Hname.
    eexists; split; [reflexivity|]. simpl. repeat split; trivial.
    + left. exists before, hostel, after. repeat split; trivial.
      eapply Forall_impl; [|exact Hbefore]. simpl.
      intros h Hh. apply String.eqb_neq. exact Hh.
    + intros _. exists hostel. split; [|assumption].
      rewrite Heq. apply in_or_app. right. left. reflexivity.
  - eexists; split; [reflexivity|]. simpl.
    assert (Hnone : Forall (fun h => name h <> hostelName) hostelCache).
    { eapply Forall_impl; [|exact Hfind]. simpl.
      intros h Hh. apply String.eqb_neq. exact Hh. }
    repeat split; trivial.
    + right. split; trivial.
    + discriminate.
    + intros (h & Hin & Hname). exfalso.
      rewrite Forall_forall in Hnone. exact (Hnone h Hin Hname).
Qed.

(** *** [GET /hostel-limit] *)

Lemma roundMagnitude_integral (z : Z) :
  1 <= z ->
  match Js.roundMagnitude (inject_Z z) with
  | Some r => exists z', r = inject_Z z'
  | None => True
  end.
Proof.
  intros Hz. destruct (Z_le_gt_dec z safe) as [Hs|Hs].
  - rewrite roundMagnitude_integer by lia. eauto.
  - unfold safe in Hs.
    assert (Hpos : (0 < inject_Z z)%Q) by (unfold Qlt; simpl; lia).
    destruct (ilog2_spec (inject_Z z) Hpos) as [_ Hhi].
    unfold Js.roundMagnitude. cbv zeta.
    set (e := Js.ilog2 (inject_Z z)) in *.
    assert (He : 53 <= e).
    { assert (H : (2 ^ 53 < 2 ^ (e + 1))%Q).
      { eapply Qlt_trans; [|exact Hhi].
        rewrite (pow2_Z 53) by lia. rewrite <- Zlt_Qlt. lia. }
      apply pow2_lt_inv in H. lia. }
    rewrite Z.max_l by lia.
    destruct (Qle_bool (2 ^ 1024) _); [exact I|].
    eexists. apply Qred_integer.
    rewrite (pow2_Z (e - 52)) by lia. rewrite <- inject_Z_mult. reflexivity.
Qed.

Lemma ofInteger_integral (z : Z) :
  (exists z', Js.ofInteger z = Js.integer z')
  \/ (exists negative, Js.ofInteger z = Js.Infinity negative).
Proof.
  unfold Js.ofInteger, Js.round64. cbv zeta.
  rewrite (Qred_integer (inject_Z z) z) by reflexivity.
  destruct (Z.compare_spec z 0) as [E|E|E].
  - subst z. left. exists 0. reflexivity.
  - assert (Hc : (inject_Z z ?= 0)%Q = Lt).
    { apply (proj1 (Qlt_alt _ _)). unfold Qlt. simpl. lia. }
    rewrite Hc. rewrite <- inject_Z_opp.
    pose proof (roundMagnitude_integral (- z) ltac:(lia)) as H.
    destruct (Js.roundMagnitude (inject_Z (- z))) as [r|].
    + destruct H as (z' & ->). left. exists (- z'). reflexivity.
    + right. eauto.
  - assert (Hc : (inject_Z z ?= 0)%Q = Gt).
    { apply (proj1 (Qgt_alt _ _)). unfold Qlt. simpl. lia. }
    rewrite Hc.
    pose proof (roundMagnitude_integral z ltac:(lia)) as H.
    destruct (Js.roundMagnitude (inject_Z z)) as [r|].
    + destruct H as (z' & ->). left. exists z'. reflexivity.
    + right. eauto.
Qed.

(** [parseInt] gives [NaN], an integer or an infinity. *)
Lemma parseInt_cases (s : string) :
  Js.parseInt s = Js.NaN
  \/ (exists z, Js.parseInt s = Js.integer z)
  \/ (exists negative, Js.parseInt s = Js.Infinity negative).
Proof.
  unfold Js.parseInt. destruct (Js.signOf (Js.trimStart s)) as [negative body].
  destruct (match Js.hexPrefix body with
            | Some r => Js.digits 16 r 0 0
            | None => Js.digits 10 body 0 0
            end) as [[value count] rest].
  destruct count as [|count]; [left; reflexivity|]. right.
  apply ofInteger_integral.
Qed.

Lemma orDefault_cases (s : string) (d : Z) :
  d <> 0 ->
  (exists n, n <> 0 /\ Js.orDefault (Js.parseInt s) (Js.integer d)
                       = Js.integer n)
  \/ (exists negative,
         Js.orDefault (Js.parseInt s) (Js.integer d) = Js.Infinity negative).
Proof.
  intros Hd.
  destruct (parseInt_cases s) as [E|[(z & E)|(negative & E)]]; rewrite E.
  - left. exists d. auto.
  - left. unfold Js.orDefault, Js.integer.
    destruct (Qeq_bool (inject_Z z) 0) eqn:Ez.
    + exists d. auto.
    + exists z. split; [|reflexivity]. intros ->. discriminate Ez.
  - right. exists negative. reflexivity.
Qed.

(** C6, as the claim states it, fails for a negative limit: with limit -1
    on three cached records the answer is the first two of them, which is
    neither "the first -1 entries" nor of length -1. *)
Lemma hostel_limit_negative_counterexample :
  Js.orDefault (Js.parseInt (Js.ToString (Some "-1"%string))) (Js.integer 5)
  = Js.integer (-1)
  /\ exists o,
       run (get_hostel_limit (Some "-1"%string)) sampleDb
           [hilltop; northStar; quiet] = Some o
       /\ value o = json (JsonHostels [hilltop; northStar])
       /\ [hilltop; northStar]
          <> firstn (Z.to_nat (-1)) [hilltop; northStar; quiet]
       /\ -1 <= Z.of_nat (List.length [hilltop; northStar; quiet])
       /\ Z.of_nat (List.length [hilltop; northStar]) <> -1.
Proof.
  split; [vm_compute; reflexivity|].
  eexists. split; [vm_compute; reflexivity|]. simpl.
  repeat split; try discriminate; lia.
Qed.

(** C6 (amended): the answer is always a 200 JSON array read from
    [hostelCache], with nothing else done.  The limit is a non-zero integer
    or an infinity.  For a positive limit the answer is exactly the first
    [limit] cached entries in cache order ([limit] of them when the cache
    has that many, all of them otherwise, none on an empty cache), and for
    plus infinity it is the whole cache; for a negative limit [slice]
    counts from the end and the last [- limit] entries are left out, all of
    them for minus infinity. *)
Theorem hostel_limit_first_entries
  (limit_param : option string) (db : Db) (hostelCache : list Hostel) :
  let limit :=
    Js.orDefault (Js.parseInt (Js.ToString limit_param)) (Js.integer 5) in
  exists limitedHostels,
    run (get_hostel_limit limit_param) db hostelCache
    = Some {| value := json (JsonHostels limitedHostels);
              cache := hostelCache; trace := [] |}
    /\ ((exists n, n <> 0 /\ limit = Js.integer n)
        \/ (exists negative, limit = Js.Infinity negative))
    /\ (hostelCache = [] -> limitedHostels = [])
    /\ (forall n, limit = Js.integer n -> 0 < n ->
        limitedHostels = firstn (Z.to_nat n) hostelCache
        /\ (n <= Z.of_nat (List.length hostelCache) ->
            Z.of_nat (List.length limitedHostels) = n)
        /\ (Z.of_nat (List.length hostelCache) <= n ->
            limitedHostels = hostelCache))
    /\ (forall n, limit = Js.integer n -> n < 0 ->
        limitedHostels
        = firstn (List.length hostelCache - Z.to_nat (- n)) hostelCache)
    /\ (limit = Js.Infinity false -> limitedHostels = hostelCache)
    /\ (limit = Js.Infinity true -> limitedHostels = []).
Proof.
  intros limit. exists (Js.slice hostelCache (Js.integer 0) limit).
  split; [reflexivity|]. split.
  { apply orDefault_cases. discriminate. }
  split.
  { intros ->. unfold Js.slice. rewrite skipn_nil, firstn_nil. reflexivity. }
  split; [|split; [|split]].
  - intros n -> Hpos. rewrite slice_positive by assumption.
    split; [reflexivity|]. split.
    + intros Hle. rewrite firstn_length_le by lia. lia.
    + intros Hge. apply firstn_all2. lia.
  - intros n -> Hneg. apply slice_negative. assumption.
  - intros ->. apply (slice_infinity hostelCache false).
  - intros ->. apply (slice_infinity hostelCache true).
Qed.

Lemma hostel_limit_first_entries_witness :
  exists limitedHostels,
    run (get_hostel_limit (Some "2"%string)) sampleDb
        [hilltop; northStar; quiet]
    = Some {| value := json (JsonHostels limitedHostels);
              cache := [hilltop; northStar; quiet]; trace := [] |}
    /\ limitedHostels = [hilltop; northStar].
Proof.
  destruct (hostel_limit_first_entries (Some "2"%string) sampleDb
              [hilltop; northStar; quiet])
    as (l & Hrun & _ & _ & Hpos & _).
  exists l. split; [exact Hrun|].
  destruct (Hpos 2) as (Hl & _); [vm_compute; reflexivity | lia |].
  exact Hl.
Defined.

(** *** Sorting *)

Section Sorting.

Variable leb : Hostel -> Hostel -> bool.
Hypothesis leb_total : forall a b, leb a b = true \/ leb b a = true.
Hypothesis leb_trans :
  forall a b c, leb a b = true -> leb b c = true -> leb a c = true.

Lemma insert_perm (x : Hostel) (l : list Hostel) :
  Permutation (x :: l) (insert leb x l).
Proof.
  induction l as [|y t IH]; simpl.
  - apply Permutation_refl.
  - destruct (leb x y).
    + apply Permutation_refl.
    + eapply perm_trans; [apply perm_swap|]. apply perm_skip. exact IH.
Qed.

Lemma sortBy_perm (l : list Hostel) : Permutation l (sortBy leb l).
Proof.
  induction l as [|x t IH]; simpl.
  - apply perm_nil.
  - eapply perm_trans; [apply perm_skip; exact IH|]. apply insert_perm.
Qed.

Lemma insert_sorted (x : Hostel) (l : list Hostel) :
  StronglySorted (fun a b => leb a b = true) l ->
  StronglySorted (fun a b => leb a b = true) (insert leb x l).
Proof.
  induction 1 as [|y t Hsorted IH Hy]; simpl.
  - repeat constructor.
  - destruct (leb x y) eqn:Hxy.
    + constructor; [constructor; assumption|].
      constructor; [exact Hxy|].
      eapply Forall_impl; [|exact Hy]. intros z Hz.
      exact (leb_trans _ _ _ Hxy Hz).
    + constructor; [exact IH|].
      apply Forall_forall. intros z Hz.
      apply (Permutation_in _ (Permutation_sym (insert_perm x t))) in Hz.
      destruct Hz as [<-|Hz].
      * destruct (leb_total x y) as [H|H]; [congruence|exact H].
      * rewrite Forall_forall in Hy. apply Hy. exact Hz.
Qed.

Lemma sortBy_sorted (l : list Hostel) : StronglySorted (fun a b => leb a b = true) (sortBy leb l).
Proof.
  induction l as [|x t IH]; simpl.
  - constructor.
  - apply insert_sorted. exact IH.
Qed.

End Sorting.

Lemma rating_leb_le (a b : option Q) : rating_leb a b = true <-> rating_le a b.
Proof.
  destruct a as [x|], b as [y|]; simpl; try tauto.
  - apply Qle_bool_iff.
  - split; [discriminate|tauto].
Qed.

Lemma rating_leb_total (a b : option Q) :
  rating_leb a b = true \/ rating_leb b a = true.
Proof.
  destruct a as [x|], b as [y|]; simpl; auto.
  destruct (Qlt_le_dec x y) as [H|H].
  - left. apply Qle_bool_iff. apply Qlt_le_weak. exact H.
  - right. apply Qle_bool_iff. exact H.
Qed.

Lemma rating_leb_trans (a b c : option Q) :
  rating_leb a b = true -> rating_leb b c = true -> rating_leb a c = true.
Proof.
  destruct a as [x|], b as [y|], c as [z|]; simpl; auto; try discriminate.
  rewrite !Qle_bool_iff. apply Qle_trans.
Qed.

Lemma StronglySorted_weaken {A : Type} (R S : A -> A -> Prop) (l : list A) :
  (forall a b, R a b -> S a b) -> StronglySorted R l -> StronglySorted S l.
Proof.
  intros HRS. induction 1 as [|x t Hsorted IH Hx]; constructor.
  - exact IH.
  - eapply Forall_impl; [|exact Hx]. intros b. apply HRS.
Qed.

Lemma sortBy_ascending (l : list Hostel) :
  nonDecreasing (sortBy ascending l) /\ Permutation l (sortBy ascending l).
Proof.
  split; [|apply sortBy_perm].
  apply StronglySorted_weaken
    with (R := fun a b => ascending a b = true).
  - intros a b. apply rating_leb_le.
  - apply sortBy_sorted.
    + intros a b. apply rating_leb_total.
    + intros a b c. apply rating_leb_trans.
Qed.

Lemma sortBy_descending (l : list Hostel) :
  nonIncreasing (sortBy descending l) /\ Permutation l (sortBy descending l).
Proof.
  split; [|apply sortBy_perm].
  apply StronglySorted_weaken
    with (R := fun a b => descending a b = true).
  - intros a b. apply rating_leb_le.
  - apply sortBy_sorted.
    + intros a b. apply rating_leb_total.
    + intros a b c H1 H2. unfold descending in *.
      eapply rating_leb_trans; eassumption.
Qed.

(** *** Filters of [GET /hostels] *)

Lemma compileDoc_app (a b : list (string * Cond)) (ta tb : Hostel -> bool) :
  compileDoc a = Some ta -> compileDoc b = Some tb ->
  exists t, compileDoc (a ++ b) = Some t /\ forall h, t h = ta h && tb h.
Proof.
  revert ta. induction a as [|[key c] a IH]; simpl; intros ta Ha Hb.
  - injection Ha as <-. exists tb. auto.
  - destruct (compileCond c) as [test|]; [|discriminate].
    destruct (compileDoc a) as [others|]; [|discriminate].
    injection Ha as <-.
    destruct (IH others eq_refl Hb) as (t & -> & Ht).
    eexists; split; [reflexivity|]. intros h. simpl.
    rewrite Ht. apply andb_assoc.
Qed.

Lemma compileDoc_category (category_param : option string) :
  exists t, compileDoc (categoryFields category_param) = Some t
            /\ forall h, t h = inCategory category_param h.
Proof.
  unfold categoryFields, inCategory.
  destruct (Js.truthy category_param); simpl.
  - eexists; split; [reflexivity|]. intros h. simpl. apply andb_true_r.
  - eexists; split; [reflexivity|]. reflexivity.
Qed.

Lemma compileDoc_rating (v : Js.number) :
  exists t, compileDoc [("rating"%string, Gte v)] = Some t
            /\ forall h, t h = ratingAtLeast v h.
Proof.
  eexists; split; [reflexivity|]. intros h. unfold ratingAtLeast. simpl.
  unfold field. simpl. destruct (rating h); apply andb_true_r.
Qed.

Lemma number_leb_le (v : Js.number) (q : Q) :
  number_leb v q = true <-> number_le v q.
Proof.
  destruct v as [|negative|x]; simpl.
  - split; [discriminate|tauto].
  - tauto.
  - apply Qle_bool_iff.
Qed.

Lemma get_hostels_eq (category_param rating_param : option string) :
  get_hostels category_param rating_param
  = if Js.truthy category_param
    then Console ConsoleLog
           [AText "Filtering by category: ";
            AText (Js.ToString category_param)]
           (hostels_rating rating_param (categoryFields category_param))
    else hostels_rating rating_param (categoryFields category_param).
Proof.
  unfold get_hostels, categoryFields.
  destruct (Js.truthy category_param); reflexivity.
Qed.

Lemma answered_console {A : Type} (r : option (Outcome A)) (v : A)
  (c : list Hostel) (calls : list Event) (level : Level) (args : list LogArg) :
  answered r v c calls -> answered (emit (EvConsole level args) r) v c calls.
Proof.
  intros (o & -> & Hv & Hc & Ht). eexists; split; [reflexivity|].
  simpl. auto.
Qed.

Lemma run_hostels_find (query : list (string * Cond)) (sort : Sort)
  (test : Hostel -> bool) (db : Db) (c : list Hostel) :
  healthy 1 (faults db) = true ->
  compileDoc query = Some test ->
  answered (run (hostels_find query sort) db c)
    (json (JsonHostels (applySort sort (List.filter test (collection db)))))
    c
    [EvFind {| filter := Doc query; sort := sort;
               skip := None; limit := None |}].
Proof.
  intros H Hq. apply nextFault_healthy in H as (db' & Hn & _ & _).
  unfold hostels_find. cbn [run]. rewrite Hn. cbn [answer].
  unfold answerFind, find. cbn [filter compileFilter]. rewrite Hq.
  cbn [skip limit Mongo.sort applySkip applyLimit tryAwait run].
  eexists; split; [reflexivity|]. simpl. auto.
Qed.

Lemma run_get_hostels_prefix (category_param rating_param : option string)
  (db : Db) (c : list Hostel) (v : Response) (calls : list Event) :
  answered (run (hostels_rating rating_param (categoryFields category_param))
              db c) v c calls ->
  answered (run (get_hostels category_param rating_param) db c) v c calls.
Proof.
  intros H. rewrite get_hostels_eq.
  destruct (Js.truthy category_param); [|exact H].
  cbn [run]. apply answered_console. exact H.
Qed.

Lemma hostels_rating_number (rating : string) (query : list (string * Cond)) :
  rating <> "low-to-high"%string -> rating <> "high-to-low"%string ->
  Js.isNaN (Js.parseFloat rating) = false ->
  hostels_rating (Some rating) query
  = Console ConsoleLog
      [AText "Filtering by rating: "; ANumber (Js.parseFloat rating)]
      (hostels_find (query ++ [("rating"%string, Gte (Js.parseFloat rating))])
         {| sort_rating := None |}).
Proof.
  intros Hlow Hhigh Hnum. unfold hostels_rating.
  assert (Hne : rating <> ""%string) by (intros ->; discriminate Hnum).
  cbn [Js.truthy Js.ToString].
  apply String.eqb_neq in Hne, Hlow, Hhigh.
  rewrite Hne, Hlow, Hhigh, Hnum. reflexivity.
Qed.

Lemma hostels_rating_invalid (rating : string) (query : list (string * Cond)) :
  rating <> ""%string ->
  rating <> "low-to-high"%string -> rating <> "high-to-low"%string ->
  Js.parseFloat rating = Js.NaN ->
  hostels_rating (Some rating) query
  = Console ConsoleWarn
      [AText "Invalid rating value provided: "; AText rating]
      (Ret (statusJson 400 (JsonMessage "Invalid rating value provided" None))).
Proof.
  intros Hne Hlow Hhigh Hnan. unfold hostels_rating.
  cbn [Js.truthy Js.ToString].
  apply String.eqb_neq in Hne, Hlow, Hhigh.
  rewrite Hne, Hlow, Hhigh, Hnan. reflexivity.
Qed.

(** *** [GET /hostels] *)

(** C1, as the claim states it, fails when the rating parameter is present
    but empty ([?rating=]): it is neither token and does not parse as a
    number, yet the handler answers 200 and queries the store. *)
Lemma hostels_empty_rating_counterexample :
  Js.parseFloat "" = Js.NaN
  /\ ""%string <> "low-to-high"%string
  /\ ""%string <> "high-to-low"%string
  /\ exists o,
       run (get_hostels None (Some ""%string)) sampleDb [] = Some o
       /\ status (value o) = 200
       /\ storeCalls (trace o) = [EvFind findAll].
Proof.
  split; [reflexivity|]. split; [discriminate|]. split; [discriminate|].
  eexists. split; [reflexivity|]. split; reflexivity.
Qed.

(** C1 (amended): when the rating parameter is present, is neither
    "low-to-high" nor "high-to-low" and does not parse as a number, then,
    if it is not empty, the handler answers 400 with the message "Invalid
    rating value provided" and makes no store call; if it is empty, the
    request is handled as the same request without rating: the store is
    queried with the category condition alone, no rating condition and no
    sort. *)
Theorem hostels_invalid_rating_rejected
  (category_param : option string) (rating : string)
  (db : Db) (hostelCache : list Hostel) :
  rating <> "low-to-high"%string -> rating <> "high-to-low"%string ->
  Js.parseFloat rating = Js.NaN ->
  if String.eqb rating ""
  then
    get_hostels category_param (Some rating) = get_hostels category_param None
    /\ exists o,
         run (get_hostels category_param (Some rating)) db hostelCache
         = Some o
         /\ storeCalls (trace o)
            = [EvFind {| filter := Doc (categoryFields category_param);
                         sort := {| sort_rating := None |};
                         skip := None; limit := None |}]
  else
    exists o,
      run (get_hostels category_param (Some rating)) db hostelCache = Some o
      /\ value o
         = statusJson 400 (JsonMessage "Invalid rating value provided" None)
      /\ cache o = hostelCache
      /\ storeCalls (trace o) = [].
Proof.
  intros Hlow Hhigh Hnan.
  destruct (String.eqb_spec rating "") as [->|Hne].
  - split; [reflexivity|].
    rewrite get_hostels_eq. unfold hostels_rating, hostels_find.
    cbn [Js.truthy String.eqb negb].
    destruct (Js.truthy category_param); cbn [run];
      destruct (nextFault db) as [[e|] db']; cbv zeta; cbn [answer];
        try destruct (answerFind db _) as [l|e'];
        cbn [tryAwait hostels_catch run emit];
        (eexists; split; [reflexivity|]; reflexivity).
  - apply run_get_hostels_prefix.
    rewrite hostels_rating_invalid by assumption.
    eexists; split; [reflexivity|]. simpl. auto.
Qed.

Lemma hostels_invalid_rating_rejected_witness :
  exists o,
    run (get_hostels (Some "boys"%string) (Some "banana"%string)) sampleDb []
    = Some o
    /\ value o
       = statusJson 400 (JsonMessage "Invalid rating value provided" None)
    /\ cache o = []
    /\ storeCalls (trace o) = [].
Proof.
  apply (hostels_invalid_rating_rejected (Some "boys"%string)
           "banana"%string sampleDb []);
    [discriminate | discriminate | reflexivity].
Defined.

(** C4: when the rating parameter is neither token and parses as a number
    [v], the one store call carries the filter with [rating: { $gte: v }]
    after the category condition and the empty sort, and every record
    answered has a rating that is at least [v]. *)
Theorem hostels_numeric_rating_filters
  (category_param : option string) (rating_param : string) (v : Js.number)
  (db : Db) (hostelCache : list Hostel) :
  rating_param <> "low-to-high"%string ->
  rating_param <> "high-to-low"%string ->
  Js.parseFloat rating_param = v -> Js.isNaN v = false ->
  healthy 1 (faults db) = true ->
  exists o hostels,
    run (get_hostels category_param (Some rating_param)) db hostelCache
    = Some o
    /\ value o = json (JsonHostels hostels)
    /\ storeCalls (trace o)
       = [EvFind {| filter := Doc (categoryFields category_param
                                    ++ [("rating"%string, Gte v)]);
                    sort := {| sort_rating := None |};
                    skip := None; limit := None |}]
    /\ Forall (fun h => exists q, rating h = Some q /\ number_le v q) hostels
    /\ hostels
       = List.filter
           (fun h => inCategory category_param h && ratingAtLeast v h)
           (collection db).
Proof.
  intros Hlow Hhigh Hv Hnum Hdb. subst v.
  destruct (compileDoc_category category_param) as (tc & Hc & Htc).
  destruct (compileDoc_rating (Js.parseFloat rating_param)) as (tr & Hr & Htr).
  destruct (compileDoc_app _ _ _ _ Hc Hr) as (t & Ht & Hth).
  assert (Hrun := run_hostels_find _ {| sort_rating := None |} t db
                    hostelCache Hdb Ht).
  apply (answered_console _ _ _ _ ConsoleLog
           [AText "Filtering by rating: ";
            ANumber (Js.parseFloat rating_param)]) in Hrun.
  change (emit _ (run ?p db hostelCache))
    with (run (Console ConsoleLog
                 [AText "Filtering by rating: ";
                  ANumber (Js.parseFloat rating_param)] p) db hostelCache)
    in Hrun.
  rewrite <- hostels_rating_number in Hrun by assumption.
  apply run_get_hostels_prefix in Hrun.
  destruct Hrun as (o & Ho & Hval & _ & Hcalls).
  exists o. eexists. split; [exact Ho|]. split; [exact Hval|].
  split; [exact Hcalls|]. cbn [applySort sort_rating].
  assert (Hext : List.filter t (collection db)
                 = List.filter
                     (fun h => inCategory category_param h
                               && ratingAtLeast (Js.parseFloat rating_param) h)
                     (collection db)).
  { apply filter_ext. intros h. rewrite Hth, Htc, Htr. reflexivity. }
  split; [|exact Hext]. rewrite Hext.
  apply Forall_forall. intros h Hin. apply filter_In in Hin as [_ Hh].
  apply andb_true_iff in Hh as [_ Hh]. unfold ratingAtLeast in Hh.
  destruct (rating h) as [q|]; [|discriminate].
  exists q. split; [reflexivity|]. apply number_leb_le. exact Hh.
Qed.

Lemma hostels_numeric_rating_filters_witness :
  exists o hostels,
    run (get_hostels None (Some "3"%string)) sampleDb [] = Some o
    /\ value o = json (JsonHostels hostels)
    /\ Forall (fun h => exists q, rating h = Some q
                                  /\ number_le (Js.Num (3 # 1)) q) hostels
    /\ hostels = [hilltop; northStar].
Proof.
  destruct (hostels_numeric_rating_filters None "3"%string (Js.Num (3 # 1))
              sampleDb [])
    as (o & hostels & Hrun & Hval & _ & Hall & Heq);
    [discriminate | discriminate | reflexivity | reflexivity | reflexivity |].
  exists o, hostels. repeat split; assumption.
Defined.

(** C5: with rating "low-to-high" the one store call carries the category
    condition only and the sort [{ rating: 1 }], and the answer holds the
    records of the category, all of them, in non-decreasing order of rating;
    with "high-to-low" the sort is [{ rating: -1 }] and the order is
    non-increasing. *)
Theorem hostels_rating_tokens_sort
  (category_param : option string) (db : Db) (hostelCache : list Hostel) :
  healthy 1 (faults db) = true ->
  (exists o hostels,
      run (get_hostels category_param (Some "low-to-high"%string)) db
          hostelCache = Some o
      /\ value o = json (JsonHostels hostels)
      /\ storeCalls (trace o)
         = [EvFind {| filter := Doc (categoryFields category_param);
                      sort := {| sort_rating := Some Ascending |};
                      skip := None; limit := None |}]
      /\ nonDecreasing hostels
      /\ Permutation
           (List.filter (inCategory category_param) (collection db)) hostels)
  /\ (exists o hostels,
         run (get_hostels category_param (Some "high-to-low"%string)) db
             hostelCache = Some o
         /\ value o = json (JsonHostels hostels)
         /\ storeCalls (trace o)
            = [EvFind {| filter := Doc (categoryFields category_param);
                         sort := {| sort_rating := Some Descending |};
                         skip := None; limit := None |}]
         /\ nonIncreasing hostels
         /\ Permutation
              (List.filter (inCategory category_param) (collection db))
              hostels).
Proof.
  intros Hdb.
  destruct (compileDoc_category category_param) as (tc & Hc & Htc).
  assert (Hext : List.filter tc (collection db)
                 = List.filter (inCategory category_param) (collection db))
    by (apply filter_ext; exact Htc).
  split.
  - assert (Hrun := run_hostels_find _ {| sort_rating := Some Ascending |}
                      tc db hostelCache Hdb Hc).
    apply (answered_console _ _ _ _ ConsoleLog
             [AText "Sorting by rating: low-to-high"]) in Hrun.
    apply (run_get_hostels_prefix category_param
             (Some "low-to-high"%string)) in Hrun.
    destruct Hrun as (o & Ho & Hval & _ & Hcalls).
    exists o. eexists. split; [exact Ho|]. split; [exact Hval|].
    split; [exact Hcalls|]. cbn [applySort sort_rating]. rewrite Hext.
    apply sortBy_ascending.
  - assert (Hrun := run_hostels_find _ {| sort_rating := Some Descending |}
                      tc db hostelCache Hdb Hc).
    apply (answered_console _ _ _ _ ConsoleLog
             [AText "Sorting by rating: high-to-low"]) in Hrun.
    apply (run_get_hostels_prefix category_param
             (Some "high-to-low"%string)) in Hrun.
    destruct Hrun as (o & Ho & Hval & _ & Hcalls).
    exists o. eexists. split; [exact Ho|]. split; [exact Hval|].
    split; [exact Hcalls|]. cbn [applySort sort_rating]. rewrite Hext.
    apply sortBy_descending.
Qed.

Lemma hostels_rating_tokens_sort_witness :
  (exists o,
      run (get_hostels None (Some "low-to-high"%string)) sampleDb [] = Some o
      /\ value o = json (JsonHostels [quiet; base; hilltop; northStar]))
  /\ (exists o,
         run (get_hostels None (Some "high-to-low"%string)) sampleDb []
         = Some o
         /\ value o = json (JsonHostels [northStar; hilltop; base; quiet])).
Proof.
  destruct (hostels_rating_tokens_sort None sampleDb [] eq_refl)
    as [(o1 & l1 & H1 & V1 & _) (o2 & l2 & H2 & V2 & _)].
  split.
  - exists o1. split; [exact H1|].
    vm_compute in H1. injection H1 as <-. reflexivity.
  - exists o2. split; [exact H2|].
    vm_compute in H2. injection H2 as <-. reflexivity.
Defined.

(** *** The cache is read-only for the handlers *)

(** C10: no request handler changes [hostelCache]: every request, with
    any store and any cache, is answered, and after it the cache is what it
    was and no assignment took place; the loader does assign it, with the
    whole collection, when its read is answered. *)
Theorem handlers_never_modify_cache :
  (forall (req : Request) (db : Db) (hostelCache : list Hostel),
      ReadOnly (handle req)
      /\ exists o,
           run (handle req) db hostelCache = Some o
           /\ cache o = hostelCache
           /\ cacheValues hostelCache (trace o) = [hostelCache])
  /\ (forall (db : Db) (hostelCache : list Hostel),
         healthy 1 (faults db) = true ->
         exists o,
           run prefetchHostelData db hostelCache = Some o
           /\ cache o = collection db
           /\ In (EvAssign (collection db)) (trace o)).
Proof.
  split.
  - intros req db hostelCache. split; [apply handle_ReadOnly|].
    destruct (run_total (handle req) db hostelCache) as [o Hrun].
    exists o. split; [exact Hrun|].
    exact (run_ReadOnly (handle req) (handle_ReadOnly req) db hostelCache o
             Hrun).
  - intros db hostelCache H.
    rewrite (run_prefetch_answered db hostelCache H).
    eexists; split; [reflexivity|]. simpl. auto.
Qed.

Lemma handlers_never_modify_cache_witness :
  (exists o,
      run (handle (GetHostels (Some "boys"%string) (Some "2.5"%string)))
          sampleDb [quiet] = Some o
      /\ cache o = [quiet])
  /\ (exists o,
         run prefetchHostelData sampleDb [quiet] = Some o
         /\ cache o = collection sampleDb).
Proof.
  destruct handlers_never_modify_cache as [Hhandlers Hloader]. split.
  - destruct (Hhandlers (GetHostels (Some "boys"%string) (Some "2.5"%string))
                sampleDb [quiet])
      as (_ & o & Hrun & Hcache & _).
    exists o. split; assumption.
  - destruct (Hloader sampleDb [quiet] eq_refl) as (o & Hrun & Hc & _).
    exists o. split; assumption.
Defined.

(** *** [POST /search] *)

Lemma literal_cons (c : ascii) (r : string) :
  literal (String c r) = true ->
  Ascii.eqb c "." = false /\ metachar c = false /\ literal r = true.
Proof.
  unfold literal. simpl. intros H. apply andb_true_iff in H as [Hc Hr].
  apply negb_true_iff in Hc. repeat split; trivial.
  destruct (Ascii.eqb c ".") eqn:E; [|reflexivity].
  apply Ascii.eqb_eq in E. subst c. discriminate Hc.
Qed.

Lemma compile_literal (query : string) :
  literal query = true ->
  compile query = Some (map Lit (list_ascii_of_string query)).
Proof.
  induction query as [|c r IH]; simpl; intros H.
  - reflexivity.
  - apply literal_cons in H as (Hdot & Hmeta & Hr).
    rewrite (IH Hr), Hdot, Hmeta. reflexivity.
Qed.

Lemma matchesAt_literal (query s : string) :
  matchesAt true (map Lit (list_ascii_of_string query)) s
  = startsWith (lowerString s) (lowerString query).
Proof.
  revert s. induction query as [|c r IH]; intros s; simpl.
  - destruct s; reflexivity.
  - destruct s as [|b t]; simpl; [reflexivity|]. rewrite IH. reflexivity.
Qed.

Lemma search_literal (query s : string) :
  search true (map Lit (list_ascii_of_string query)) s
  = includesIgnoringCase s query.
Proof.
  unfold includesIgnoringCase.
  induction s as [|b t IH]; simpl.
  - rewrite matchesAt_literal. reflexivity.
  - rewrite matchesAt_literal, IH. reflexivity.
Qed.




(** *** [GET /hostel-data] *)


Lemma ceiling_least (total limit : Z) :
  0 < limit ->
  let pages := - ((- total) / limit) in
  (pages - 1) * limit < total <= pages * limit.
Proof.
  intros Hl pages. subst pages.
  pose proof (Z.div_mod (- total) limit ltac:(lia)) as Hdiv.
  pose proof (Z.mod_pos_bound (- total) limit Hl) as Hmod.
  nia.
Qed.

Lemma asInteger_integer (z : Z) :
  - safe <= z <= safe -> asInteger (Js.integer z) = Some z.
Proof.
  intros Hz. unfold asInteger, Js.integer.
  rewrite (Qred_integer (inject_Z z) z) by reflexivity.
  cbn [Qden Qnum inject_Z]. rewrite Pos.eqb_refl.
  replace (Z.abs z <=? 2 ^ 53) with true; [reflexivity|].
  symmetry. apply Z.leb_le. unfold safe in Hz. lia.
Qed.

Lemma find_page (docs : list Hostel) (skip limit : Z) :
  0 <= skip <= safe -> 1 <= limit <= safe ->
  find docs {| filter := Doc []; sort := {| sort_rating := None |};
               skip := Some (Js.integer skip);
               limit := Some (Js.integer limit) |}
  = Some (Fulfilled (firstn (Z.to_nat limit) (skipn (Z.to_nat skip) docs))).
Proof.
  intros Hs Hl. unfold find. cbn [filter compileFilter compileDoc].
  rewrite filter_all. unfold applySort. cbn [Mongo.sort sort_rating].
  unfold applySkip, applyLimit. cbn [Mongo.skip Mongo.limit].
  rewrite !asInteger_integer by lia.
  replace (skip <? 0) with false by (symmetry; apply Z.ltb_ge; lia).
  replace (limit =? 0) with false by (symmetry; apply Z.eqb_neq; lia).
  rewrite Zabs2Nat.abs_nat_nonneg by lia. reflexivity.
Qed.

Lemma get_hostel_data_calls
  (page_param limit_param : option string) (db : Db) (c : list Hostel) :
  healthy 1 (faults db) = true ->
  let page :=
    Js.orDefault (Js.parseInt (Js.ToString page_param)) (Js.integer 1) in
  let limit :=
    Js.orDefault (Js.parseInt (Js.ToString limit_param)) (Js.integer 5) in
  exists o,
    run (get_hostel_data page_param limit_param) db c = Some o
    /\ storeCalls (trace o) = [EvCount; EvFind (pageQuery page limit)]
    /\ (status (value o) = 200 ->
        exists totalPages hostels,
          body (value o) = JsonPage totalPages page hostels).
Proof.
  intros H page limit.
  apply nextFault_healthy in H as (db' & Hn & Hdocs & _).
  unfold get_hostel_data. fold page. fold limit. cbv zeta.
  cbn [run]. rewrite Hn. cbn [answer tryAwait run].
  destruct (nextFault db') as [fault db''].
  change {| filter := Doc []; sort := {| sort_rating := None |};
            skip := Some (Js.mul (Js.sub page (Js.integer 1)) limit);
            limit := Some limit |}
    with (pageQuery page limit).
  destruct fault as [e|]; cbn [answer].
  - cbn [tryAwait run emit]. eexists; split; [reflexivity|].
    simpl. split; [reflexivity|]. discriminate.
  - destruct (answerFind db' (pageQuery page limit)) as [l|e];
      cbn [tryAwait run emit].
    + eexists; split; [reflexivity|].
      simpl. split; [reflexivity|]. intros _. eauto.
    + eexists; split; [reflexivity|].
      simpl. split; [reflexivity|]. discriminate.
Qed.

Lemma get_hostel_data_answered
  (page_param limit_param : option string) (db : Db) (c : list Hostel)
  (page limit : Z) :
  Js.orDefault (Js.parseInt (Js.ToString page_param)) (Js.integer 1)
  = Js.integer page ->
  Js.orDefault (Js.parseInt (Js.ToString limit_param)) (Js.integer 5)
  = Js.integer limit ->
  1 <= page -> 1 <= limit -> page * limit <= safe ->
  Z.of_nat (List.length (collection db)) <= safe ->
  healthy 2 (faults db) = true ->
  run (get_hostel_data page_param limit_param) db c
  = Some {| value :=
              json (JsonPage
                      (Js.integer
                         (- (- Z.of_nat (List.length (collection db))
                             / limit)))
                      (Js.integer page)
                      (firstn (Z.to_nat limit)
                         (skipn (Z.to_nat ((page - 1) * limit))
                            (collection db))));
            cache := c;
            trace :=
              [EvCount;
               EvFind {| filter := Doc [];
                         sort := {| sort_rating := None |};
                         skip := Some (Js.integer ((page - 1) * limit));
                         limit := Some (Js.integer limit) |}] |}.
Proof.
  intros Hpage Hlimit Hp Hl Hsafe Hcount H.
  assert (Hp' : page <= safe) by nia.
  assert (Hl' : limit <= safe) by nia.
  assert (Hs' : 0 <= (page - 1) * limit <= safe) by nia.
  assert (Hsafe0 : 0 <= safe) by (unfold safe; lia).
  apply nextFault_healthy in H as (db' & Hn & Hdocs & H).
  apply nextFault_healthy in H as (db'' & Hn' & _ & _).
  unfold get_hostel_data. rewrite Hpage, Hlimit. cbv zeta.
  rewrite sub_integer by lia. rewrite mul_integer by lia.
  cbn [run]. rewrite Hn. cbn [answer tryAwait run]. rewrite Hn'.
  cbn [answer]. unfold answerFind. rewrite find_page by lia.
  unfold countDocuments. rewrite ofInteger_safe by lia.
  rewrite div_ceil by lia. rewrite Hdocs. reflexivity.
Qed.



(** Decimal numerals are read back by [parseInt]. *)

Lemma digitIn_digitChar (d : Z) :
  0 <= d <= 9 -> Js.digitIn 10 (digitChar d) = Some d.
Proof. intros H. each_digit H; reflexivity. Qed.

Lemma digits_numeralDigits (ds : list Z) (acc : Z) (count : nat) :
  Forall (fun d => 0 <= d <= 9) ds ->
  Js.digits 10 (numeralDigits ds) acc count
  = (fold_left (fun a d => a * 10 + d) ds acc,
     (count + List.length ds)%nat, EmptyString).
Proof.
  intros H. revert acc count.
  induction H as [|d r Hd Hr IH]; intros acc count; simpl.
  - rewrite Nat.add_0_r. reflexivity.
  - rewrite (digitIn_digitChar d Hd), IH, Nat.add_succ_r. reflexivity.
Qed.

(** A character that starts no white space is left in place. *)
Lemma trimStart_other (c : ascii) (r : string) :
  Js.isWhiteSpace c = false ->
  existsb (N.eqb (N_of_ascii c)) [194; 225; 226; 227; 239]%N = false ->
  Js.trimStart (String c r) = String c r.
Proof.
  intros Hws Hlead. cbn [existsb] in Hlead.
  repeat (apply orb_false_iff in Hlead as [? Hlead]).
  cbn [Js.trimStart]. rewrite Hws.
  destruct r as [|c2 r2]; [reflexivity|].
  unfold Js.isWhiteSpace2.
  replace (N.eqb (N_of_ascii c) 194) with false by congruence.
  cbn [andb]. destruct r2 as [|c3 r3]; [reflexivity|].
  unfold Js.isWhiteSpace3. cbv zeta.
  replace (N.eqb (N_of_ascii c) 225) with false by congruence.
  replace (N.eqb (N_of_ascii c) 226) with false by congruence.
  replace (N.eqb (N_of_ascii c) 227) with false by congruence.
  replace (N.eqb (N_of_ascii c) 239) with false by congruence.
  reflexivity.
Qed.

Lemma numeralDigits_plain (d : Z) (r : list Z) :
  0 <= d <= 9 -> Forall (fun d => 0 <= d <= 9) r ->
  let s := numeralDigits (d :: r) in
  Js.trimStart s = s /\ Js.signOf s = (false, s) /\ Js.hexPrefix s = None.
Proof.
  intros Hd Hr. cbv zeta. cbn [numeralDigits]. split.
  { each_digit Hd; apply trimStart_other; reflexivity. }
  destruct Hr as [|d' r' Hd' Hr'].
  - each_digit Hd; split; reflexivity.
  - each_digit Hd; try (split; reflexivity).
    each_digit Hd'; split; reflexivity.
Qed.

Lemma parseInt_numeral (negative : bool) (ds : list Z) :
  isDigits ds ->
  Js.parseInt (numeral negative ds)
  = Js.ofInteger (Js.applySign negative (numeralValue ds)).
Proof.
  intros [Hne Hds]. destruct ds as [|d r]; [congruence|].
  inversion Hds as [|? ? Hd Hr]; subst.
  destruct (numeralDigits_plain d r Hd Hr) as (Htrim & Hsign & Hhex).
  cbv zeta in Htrim, Hsign, Hhex.
  unfold Js.parseInt, numeral, numeralValue.
  pose proof (digits_numeralDigits (d :: r) 0 0 Hds) as Hdigits.
  set (s := numeralDigits (d :: r)) in *.
  destruct negative.
  - assert (Hminus : Js.trimStart (String "-" s) = String "-" s)
      by (apply trimStart_other; reflexivity).
    rewrite Hminus.
    change (Js.signOf (String "-" s)) with (true, s).
    cbv iota beta. rewrite Hhex, Hdigits. reflexivity.
  - rewrite Htrim, Hsign, Hhex, Hdigits. reflexivity.
Qed.

Lemma parseInt_no_number (s : string) :
  startsNoNumber s -> Js.parseInt s = Js.NaN.
Proof.
  unfold startsNoNumber, Js.parseInt.
  destruct (Js.trimStart s) as [|c r]; [reflexivity|].
  intros (Hminus & Hplus & Hdigit).
  destruct c as [b0 b1 b2 b3 b4 b5 b6 b7].
  destruct b0, b1, b2, b3, b4, b5, b6, b7;
    try discriminate Hdigit;
    try (exfalso; apply Hminus; reflexivity);
    try (exfalso; apply Hplus; reflexivity);
    reflexivity.
Qed.

Lemma numeralValue_nonneg (ds : list Z) :
  Forall (fun d => 0 <= d <= 9) ds -> 0 <= numeralValue ds.
Proof.
  intros Hall. unfold numeralValue.
  assert (G : forall acc, 0 <= acc ->
               0 <= fold_left (fun a d => a * 10 + d) ds acc).
  { induction Hall as [|d r Hd Hr IH]; intros acc Hacc; simpl.
    - exact Hacc.
    - apply IH. cbv beta in Hd. lia. }
  apply G. lia.
Qed.

Lemma orDefault_readsParameter (param : option string) (default : Z) :
  default <> 0 ->
  readsParameter param default
    (Js.orDefault (Js.parseInt (Js.ToString param)) (Js.integer default)).
Proof.
  intros Hdefault. unfold readsParameter.
  split; [unfold Js.orDefault; destruct (Js.parseInt _); reflexivity|].
  split; [intros ->; reflexivity|]. split; [|split].
  - intros s -> Hs. cbn [Js.ToString].
    rewrite (parseInt_no_number s Hs). reflexivity.
  - intros negative ds Hds Hsafe ->. cbn [Js.ToString].
    rewrite (parseInt_numeral negative ds Hds).
    pose proof (numeralValue_nonneg ds (proj2 Hds)) as Hnonneg.
    rewrite ofInteger_safe
      by (unfold Js.applySign, safe in *; destruct negative; lia).
    unfold Js.orDefault, Js.integer.
    destruct (Z.eqb_spec (numeralValue ds) 0) as [E|E].
    + rewrite E. destruct negative; reflexivity.
    + replace (Qeq_bool (inject_Z (Js.applySign negative (numeralValue ds)))
                 0) with false; [reflexivity|].
      symmetry. apply not_true_is_false. intros H.
      apply Qeq_bool_eq in H. unfold Qeq in H. simpl in H.
      destruct negative; simpl in H; lia.
  - apply orDefault_value. exact Hdefault.
Qed.

(** C7, as the claim states it, fails for the value zero: [page=0] and
    [limit=0] are numeric, yet the handler goes on with page 1 and limit 5,
    not with the zeros supplied. *)
Lemma hostel_data_zero_counterexample :
  Js.parseInt "0" = Js.integer 0
  /\ exists o,
       run (get_hostel_data (Some "0"%string) (Some "0"%string)) sampleDb []
       = Some o
       /\ storeCalls (trace o)
          = [EvCount; EvFind (pageQuery (Js.integer 1) (Js.integer 5))]
       /\ value o
          = json (JsonPage (Js.integer 1) (Js.integer 1)
                    [hilltop; northStar; quiet; base])
       /\ pageQuery (Js.integer 1) (Js.integer 5)
          <> pageQuery (Js.integer 0) (Js.integer 0).
Proof.
  split; [vm_compute; reflexivity|].
  eexists. split; [vm_compute; reflexivity|].
  repeat split. intros E. apply (f_equal Mongo.limit) in E.
  vm_compute in E. discriminate E.
Qed.

(** C7 (amended): the handler goes on with page and limit read from the
    parameters by [parseInt], with no validation: the store query carries
    skip = (page - 1) * limit and the limit whatever their sign, and a 200
    answer carries the page.  A parameter gives its default (1 for page, 5
    for limit) when it is absent or starts no integer, and when the integer
    read is 0; any other integer, negative ones included, is used as
    read. *)
Theorem hostel_data_parameters
  (page_param limit_param : option string) (db : Db)
  (hostelCache : list Hostel) :
  healthy 1 (faults db) = true ->
  exists page limit o,
    run (get_hostel_data page_param limit_param) db hostelCache = Some o
    /\ storeCalls (trace o) = [EvCount; EvFind (pageQuery page limit)]
    /\ (status (value o) = 200 ->
        exists totalPages hostels,
          body (value o) = JsonPage totalPages page hostels)
    /\ readsParameter page_param 1 page
    /\ readsParameter limit_param 5 limit.
Proof.
  intros Hdb.
  destruct (get_hostel_data_calls page_param limit_param db hostelCache Hdb)
    as (o & Hrun & Hcalls & Hbody).
  exists (Js.orDefault (Js.parseInt (Js.ToString page_param)) (Js.integer 1)),
    (Js.orDefault (Js.parseInt (Js.ToString limit_param)) (Js.integer 5)), o.
  split; [exact Hrun|]. split; [exact Hcalls|]. split; [exact Hbody|].
  split; apply orDefault_readsParameter; discriminate.
Qed.

Lemma hostel_data_parameters_witness :
  exists o,
    run (get_hostel_data (Some "-2"%string) None) sampleDb [] = Some o
    /\ storeCalls (trace o)
       = [EvCount; EvFind (pageQuery (Js.integer (-2)) (Js.integer 5))].
Proof.
  destruct (hostel_data_parameters (Some "-2"%string) None sampleDb []
              eq_refl)
    as (page & limit & o & Hrun & Hcalls & _ & Hpage & Hlimit).
  exists o. split; [exact Hrun|].
  destruct Hpage as (_ & _ & _ & Hpage & _).
  destruct Hlimit as (_ & Hlimit & _).
  rewrite (Hpage true [2]) in Hcalls;
    [| split; [discriminate | repeat constructor; lia]
     | apply Z.leb_le; vm_compute; reflexivity | reflexivity].
  rewrite (Hlimit eq_refl) in Hcalls. exact Hcalls.
Defined.

(** ** Further properties of the handlers *)

(** *** Store failures *)

Lemma run_hostels_find_failed (query : list (string * Cond)) (sort : Sort)
  (db : Db) (c : list Hostel) (e : Mongo.Error) :
  failsWith e db ->
  run (hostels_find query sort) db c
  = Some {| value :=
              statusJson 500
                (JsonMessage "Error fetching filtered hostel data" (Some e));
            cache := c;
            trace :=
              [EvConsole ConsoleLog [AText "Query:"; AQuery query];
               EvFind {| filter := Doc query; sort := sort;
                         skip := None; limit := None |};
               EvConsole ConsoleError
                 [AText "Error fetching filtered hostel data:"; AError e]] |}.
Proof.
  intros H. apply nextFault_failsWith in H as (db' & Hn).
  unfold hostels_find. cbn [run]. rewrite Hn. reflexivity.
Qed.

(** X1: when the first store call of a request fails, nothing is retried
    and nothing is half-answered: a request whose handler gets to the store
    makes that one call, logs the error and answers 500 with a message and
    the error; any other request makes no store call and does not answer
    500.  The cache is unchanged either way. *)
Theorem first_store_failure_answers_500
  (req : Request) (db : Db) (hostelCache : list Hostel) (e : Mongo.Error) :
  failsWith e db ->
  exists o,
    run (handle req) db hostelCache = Some o
    /\ cache o = hostelCache
    /\ if reachesStore req
       then List.length (storeCalls (trace o)) = 1%nat
            /\ (exists message,
                   value o = statusJson 500 (JsonMessage message (Some e)))
            /\ (exists text,
                   In (EvConsole ConsoleError [AText text; AError e])
                      (trace o))
       else storeCalls (trace o) = [] /\ status (value o) <> 500.
Proof.
  intros Hfail. pose proof (nextFault_failsWith e db Hfail) as (db' & Hn).
  destruct req as [| |hostelName|page limit|category rating|query|limit];
    cbn [handle reachesStore].
  - eexists. split; [reflexivity|]. simpl. repeat split; discriminate.
  - eexists. split; [reflexivity|]. simpl. repeat split; discriminate.
  - unfold get_hostel_name. cbn [run].
    destruct (List.find _ hostelCache);
      (eexists; split; [reflexivity|]; simpl; repeat split; discriminate).
  - unfold get_hostel_data. cbv zeta. cbn [run]. rewrite Hn.
    cbn [answer tryAwait run emit].
    eexists. split; [reflexivity|]. simpl. repeat split; eauto.
  - rewrite get_hostels_eq. unfold ratingAccepted, hostels_rating.
    destruct (Js.truthy category), (Js.truthy rating);
      cbn [negb orb run];
      repeat match goal with
             | |- context [String.eqb ?a ?b] => destruct (String.eqb a b)
             | |- context [Js.isNaN ?v] => destruct (Js.isNaN v)
             end;
      cbn [negb orb run];
      rewrite ?(run_hostels_find_failed _ _ db hostelCache e Hfail);
      (eexists; split; [reflexivity|]; simpl;
       repeat split; eauto 8; discriminate).
  - unfold post_search. cbn [run]. rewrite Hn.
    cbn [answer tryAwait run emit].
    eexists. split; [reflexivity|]. simpl. repeat split; eauto.
  - unfold get_hostel_limit. cbv zeta. cbn [run].
    eexists. split; [reflexivity|]. simpl. repeat split; discriminate.
Qed.

Lemma first_store_failure_answers_500_witness :
  exists o,
    run (handle (PostSearch "north")) downDb [quiet] = Some o
    /\ cache o = [quiet]
    /\ value o
       = statusJson 500
           (JsonMessage "Error performing search"
              (Some "connection lost"%string)).
Proof.
  destruct (first_store_failure_answers_500 (PostSearch "north") downDb
              [quiet] "connection lost"%string eq_refl)
    as (o & Hrun & Hcache & _).
  exists o. split; [exact Hrun|]. split; [exact Hcache|].
  vm_compute in Hrun. injection Hrun as <-. reflexivity.
Defined.

(** X2: [GET /hostel-data] answers all or nothing: when one of its two
    store calls fails, the answer is 500 with the message "Error fetching
    hostel data" and the error of that call; a failed count is not followed
    by the read of the page, and a count that was obtained is discarded when
    the read fails. *)
Theorem hostel_data_failure_answers_500
  (page_param limit_param : option string) (db : Db)
  (hostelCache : list Hostel) :
  healthy 2 (faults db) = false ->
  let page :=
    Js.orDefault (Js.parseInt (Js.ToString page_param)) (Js.integer 1) in
  let limit :=
    Js.orDefault (Js.parseInt (Js.ToString limit_param)) (Js.integer 5) in
  exists o e,
    run (get_hostel_data page_param limit_param) db hostelCache = Some o
    /\ value o
       = statusJson 500 (JsonMessage "Error fetching hostel data" (Some e))
    /\ cache o = hostelCache
    /\ In (EvConsole ConsoleError
             [AText "Error fetching hostel data:"; AError e]) (trace o)
    /\ ((failsWith e db /\ storeCalls (trace o) = [EvCount])
        \/ (healthy 1 (faults db) = true
            /\ storeCalls (trace o)
               = [EvCount; EvFind (pageQuery page limit)])).
Proof.
  intros H page limit. destruct db as [docs fs other].
  destruct fs as [|[e|] fs]; simpl in H; try discriminate.
  - eexists. exists e. split; [reflexivity|]. simpl.
    repeat split; auto. left. split; reflexivity.
  - destruct fs as [|[e|] fs]; simpl in H; try discriminate.
    eexists. exists e. split; [reflexivity|]. simpl.
    repeat split; auto.
Qed.

Lemma hostel_data_failure_answers_500_witness :
  exists o,
    run (get_hostel_data None None)
        {| collection := [hilltop];
           faults := [None; Some "timed out"%string];
           beyond := fun _ => Fulfilled [] |} []
    = Some o
    /\ value o
       = statusJson 500
           (JsonMessage "Error fetching hostel data"
              (Some "timed out"%string))
    /\ storeCalls (trace o)
       = [EvCount; EvFind (pageQuery (Js.integer 1) (Js.integer 5))].
Proof.
  destruct (hostel_data_failure_answers_500 None None
              {| collection := [hilltop];
                 faults := [None; Some "timed out"%string];
                 beyond := fun _ => Fulfilled [] |} [] eq_refl)
    as (o & e & Hrun & _).
  exists o. split; [exact Hrun|].
  vm_compute in Hrun. injection Hrun as <-. split; reflexivity.
Defined.

(** *** [GET /hostels] without a rating *)

Lemma filter_none {A : Type} (f : A -> bool) (l : list A) :
  (forall x, In x l -> f x = false) -> List.filter f l = [].
Proof.
  induction l as [|a l IH]; simpl; intros H; [reflexivity|].
  rewrite (H a) by (left; reflexivity).
  apply IH. intros x Hx. apply H. right. exact Hx.
Qed.

(** X3: with no rating (absent or empty) and a store that answers, the
    answer is 200 with the records of the store in store order: all of them
    when the category is absent or empty, exactly those whose category
    equals the parameter otherwise, so an unknown category gives an empty
    array and no error. *)
Theorem hostels_category_only
  (category_param rating_param : option string) (db : Db)
  (hostelCache : list Hostel) :
  Js.truthy rating_param = false ->
  healthy 1 (faults db) = true ->
  exists o hostels,
    run (get_hostels category_param rating_param) db hostelCache = Some o
    /\ value o = json (JsonHostels hostels)
    /\ storeCalls (trace o)
       = [EvFind {| filter := Doc (categoryFields category_param);
                    sort := {| sort_rating := None |};
                    skip := None; limit := None |}]
    /\ (Js.truthy category_param = false -> hostels = collection db)
    /\ (forall wanted,
           category_param = Some wanted -> wanted <> ""%string ->
           hostels
           = List.filter (fun h => String.eqb (category h) wanted)
               (collection db)
           /\ ((forall h, In h (collection db) -> category h <> wanted) ->
               hostels = [])).
Proof.
  intros Hrating Hdb.
  destruct (compileDoc_category category_param) as (tc & Hc & Htc).
  assert (Hrun := run_hostels_find _ {| sort_rating := None |} tc db
                    hostelCache Hdb Hc).
  assert (Heq : hostels_rating rating_param (categoryFields category_param)
                = hostels_find (categoryFields category_param)
                    {| sort_rating := None |}).
  { unfold hostels_rating. rewrite Hrating. reflexivity. }
  rewrite <- Heq in Hrun. apply run_get_hostels_prefix in Hrun.
  destruct Hrun as (o & Ho & Hval & _ & Hcalls).
  exists o. eexists. split; [exact Ho|]. split; [exact Hval|].
  split; [exact Hcalls|]. cbn [applySort sort_rating].
  rewrite (filter_ext tc (inCategory category_param) Htc).
  unfold inCategory. split.
  - intros ->. apply filter_all.
  - intros wanted -> Hne.
    assert (Ht : Js.truthy (Some wanted) = true).
    { simpl. apply String.eqb_neq in Hne. rewrite Hne. reflexivity. }
    rewrite Ht. cbn [Js.ToString]. split; [reflexivity|].
    intros Hnone. apply filter_none. intros h Hin.
    apply String.eqb_neq. apply Hnone. exact Hin.
Qed.

Lemma hostels_category_only_witness :
  exists o,
    run (get_hostels (Some "boys"%string) None) sampleDb [] = Some o
    /\ value o = json (JsonHostels [hilltop; base]).
Proof.
  destruct (hostels_category_only (Some "boys"%string) None sampleDb []
              eq_refl eq_refl)
    as (o & hostels & Hrun & Hval & _ & _ & Hcat).
  exists o. split; [exact Hrun|].
  destruct (Hcat "boys"%string eq_refl) as [Hh _]; [discriminate|].
  rewrite Hval, Hh. reflexivity.
Defined.

(** *** Start-up and the routes served from the cache *)

(** X4: when the connection to the store fails at start-up, the loader is
    never run: no store call is made, the cache stays empty, and from then
    on every lookup by name answers 404 and [GET /hostel-limit] answers an
    empty array, whatever the store holds. *)
Theorem startup_connection_failure_serves_empty
  (err : Mongo.Error) (db : Db) :
  exists o,
    run (startup (Rejected err)) db initialCache = Some o
    /\ storeCalls (trace o) = []
    /\ trace o
       = [EvConsole ConsoleError
            [AText "MongoDB connection error:"; AError err]]
    /\ cache o = []
    /\ (forall hostelName db',
           run (get_hostel_name hostelName) db' (cache o)
           = Some {| value := statusSend 404 "Hostel not found";
                     cache := []; trace := [] |})
    /\ (forall limit_param db',
           run (get_hostel_limit limit_param) db' (cache o)
           = Some {| value := json (JsonHostels []);
                     cache := []; trace := [] |}).
Proof.
  eexists. split; [reflexivity|]. simpl.
  repeat split. intros limit_param db'.
  unfold get_hostel_limit. cbv zeta. cbn [run].
  unfold Js.slice. simpl. rewrite firstn_nil. reflexivity.
Qed.

Lemma run_startup_connected (db : Db) (c : list Hostel) :
  healthy 1 (faults db) = true ->
  exists o, run (startup (Fulfilled tt)) db c = Some o
            /\ cache o = collection db.
Proof.
  intros H. cbn [startup run].
  rewrite (run_prefetch_answered db c H).
  eexists. split; [reflexivity|]. reflexivity.
Qed.

(** X5: after a start-up whose connection and read succeeded, a lookup by
    name answers from what the store held at load time, whatever the store
    is or holds afterwards: 200 with the first record of that name in store
    order when there is one, 404 otherwise. *)
Theorem lookup_after_load
  (db later : Db) (hostelName : string) :
  healthy 1 (faults db) = true ->
  exists loaded o,
    run (startup (Fulfilled tt)) db initialCache = Some loaded
    /\ run (get_hostel_name hostelName) later (cache loaded) = Some o
    /\ storeCalls (trace o) = []
    /\ (status (value o) = 200
        <-> exists h, In h (collection db) /\ name h = hostelName)
    /\ ((exists before hostel after,
            collection db = before ++ hostel :: after
            /\ name hostel = hostelName
            /\ Forall (fun h => name h <> hostelName) before
            /\ value o = json (JsonHostel hostel))
        \/ (Forall (fun h => name h <> hostelName) (collection db)
            /\ value o = statusSend 404 "Hostel not found")).
Proof.
  intros Hdb.
  destruct (run_startup_connected db initialCache Hdb) as (loaded & Hl & Hc).
  exists loaded. rewrite Hc. unfold get_hostel_name. cbn [run].
  pose proof (find_first (fun h => String.eqb (name h) hostelName)
                (collection db)) as Hfind.
  destruct (List.find _ (collection db)) as [hostel|].
  - destruct Hfind as (before & after & Heq & Hname & Hbefore).
    apply String.eqb_eq in Hname.
    eexists. split; [exact Hl|]. split; [reflexivity|]. simpl.
    split; [reflexivity|]. split.
    + split; [|reflexivity]. intros _. exists hostel. split; [|exact Hname].
      rewrite Heq. apply in_or_app. right. left. reflexivity.
    + left. exists before, hostel, after. repeat split; trivial.
      eapply Forall_impl; [|exact Hbefore]. simpl.
      intros h Hh. apply String.eqb_neq. exact Hh.
  - assert (Hnone : Forall (fun h => name h <> hostelName) (collection db)).
    { eapply Forall_impl; [|exact Hfind]. simpl.
      intros h Hh. apply String.eqb_neq. exact Hh. }
    eexists. split; [exact Hl|]. split; [reflexivity|]. simpl.
    split; [reflexivity|]. split.
    + split; [discriminate|]. intros (h & Hin & Hname). exfalso.
      rewrite Forall_forall in Hnone. exact (Hnone h Hin Hname).
    + right. split; trivial.
Qed.

Lemma lookup_after_load_witness :
  exists loaded o,
    run (startup (Fulfilled tt)) sampleDb initialCache = Some loaded
    /\ run (get_hostel_name "Quiet") downDb (cache loaded) = Some o
    /\ status (value o) = 200.
Proof.
  destruct (lookup_after_load sampleDb downDb "Quiet" eq_refl)
    as (loaded & o & Hl & Ho & _ & Hiff & _).
  exists loaded, o. split; [exact Hl|]. split; [exact Ho|].
  apply Hiff. exists quiet. split; [|reflexivity].
  right. right. left. reflexivity.
Defined.

(** X6: after a start-up whose connection and read succeeded,
    [GET /hostel-limit] with a positive integer limit answers the first
    [limit] records of the store in store order as of load time, without
    asking the store again. *)
Theorem hostel_limit_after_load
  (db later : Db) (limit_param : option string) (limit : Z) :
  healthy 1 (faults db) = true ->
  Js.orDefault (Js.parseInt (Js.ToString limit_param)) (Js.integer 5)
  = Js.integer limit ->
  0 < limit ->
  exists loaded,
    run (startup (Fulfilled tt)) db initialCache = Some loaded
    /\ run (get_hostel_limit limit_param) later (cache loaded)
       = Some {| value :=
                   json (JsonHostels
                           (firstn (Z.to_nat limit) (collection db)));
                 cache := collection db; trace := [] |}.
Proof.
  intros Hdb Hlimit Hpos.
  destruct (run_startup_connected db initialCache Hdb) as (loaded & Hl & Hc).
  exists loaded. split; [exact Hl|]. rewrite Hc.
  unfold get_hostel_limit. cbv zeta. cbn [run]. rewrite Hlimit.
  rewrite slice_positive by assumption. reflexivity.
Qed.

Lemma hostel_limit_after_load_witness :
  exists loaded,
    run (startup (Fulfilled tt)) sampleDb initialCache = Some loaded
    /\ run (get_hostel_limit (Some "2"%string)) downDb (cache loaded)
       = Some {| value := json (JsonHostels [hilltop; northStar]);
                 cache := collection sampleDb; trace := [] |}.
Proof.
  destruct (hostel_limit_after_load sampleDb downDb (Some "2"%string) 2
              eq_refl)
    as (loaded & Hl & Hrun); [vm_compute; reflexivity | lia |].
  exists loaded. split; [exact Hl | exact Hrun].
Defined.

(** *** Pages of [GET /hostel-data] *)

Lemma firstn_app_skipn {A : Type} (a b : nat) (l : list A) :
  firstn a l ++ firstn b (skipn a l) = firstn (a + b) l.
Proof.
  revert l. induction a as [|a IH]; intros l; simpl.
  - reflexivity.
  - destruct l as [|x l]; simpl.
    + rewrite firstn_nil. reflexivity.
    + rewrite IH. reflexivity.
Qed.

Lemma hostelsOf_page
  (page_param limit_param : option string) (db : Db) (c : list Hostel)
  (page limit : Z) :
  Js.orDefault (Js.parseInt (Js.ToString page_param)) (Js.integer 1)
  = Js.integer page ->
  Js.orDefault (Js.parseInt (Js.ToString limit_param)) (Js.integer 5)
  = Js.integer limit ->
  1 <= page -> 1 <= limit -> page * limit <= safe ->
  Z.of_nat (List.length (collection db)) <= safe ->
  healthy 2 (faults db) = true ->
  hostelsOf (run (get_hostel_data page_param limit_param) db c)
  = firstn (Z.to_nat limit)
      (skipn (Z.to_nat (page - 1) * Z.to_nat limit) (collection db)).
Proof.
  intros Hpage Hlimit Hp Hl Hsafe Hcount Hdb.
  rewrite (get_hostel_data_answered page_param limit_param db c page limit
             Hpage Hlimit Hp Hl Hsafe Hcount Hdb).
  cbn [hostelsOf value body json].
  rewrite Z2Nat.inj_mul by lia. reflexivity.
Qed.

Lemma pages_from
  (limit_param : option string) (db : Db) (c : list Hostel) (limit : Z)
  (n : nat) :
  Js.orDefault (Js.parseInt (Js.ToString limit_param)) (Js.integer 5)
  = Js.integer limit ->
  1 <= limit ->
  Z.of_nat (List.length (collection db)) <= safe ->
  healthy 2 (faults db) = true ->
  forall (pages : list (option string)) (s : nat),
    (1 <= s)%nat ->
    (Z.of_nat (s + n) - 1) * limit <= safe ->
    map (fun p => Js.orDefault (Js.parseInt (Js.ToString p)) (Js.integer 1))
      pages
    = map (fun k => Js.integer (Z.of_nat k)) (seq s n) ->
    List.concat (map (fun p => hostelsOf
                            (run (get_hostel_data p limit_param) db c))
              pages)
    = firstn (n * Z.to_nat limit)
        (skipn ((s - 1) * Z.to_nat limit) (collection db)).
Proof.
  intros Hlimit Hl Hcount Hdb.
  induction n as [|n IH]; intros pages s Hs Hsafe Hpages.
  - destruct pages; [reflexivity|discriminate].
  - destruct pages as [|p pages]; [discriminate|].
    simpl in Hpages. injection Hpages as Hp Hrest.
    cbn [map List.concat].
    rewrite (IH pages (S s)) by (assumption || lia || nia).
    rewrite (hostelsOf_page p limit_param db c (Z.of_nat s) limit)
      by (assumption || lia || nia).
    replace (Z.to_nat (Z.of_nat s - 1)) with (s - 1)%nat by lia.
    replace (S s - 1)%nat with (S (s - 1)) by lia.
    change (S (s - 1) * Z.to_nat limit)%nat
      with (Z.to_nat limit + (s - 1) * Z.to_nat limit)%nat.
    rewrite <- skipn_skipn. apply firstn_app_skipn.
Qed.

(** X7: the pages of [GET /hostel-data] tile the collection: for a limit
    of at least 1, page numbers and document count within the safe
    integers, and a store that answers, the records of pages 1, 2, ..., n
    put end to end are the first n * limit documents of the store in store
    order, with no record repeated or skipped; they are the whole
    collection as soon as n * limit reaches the document count. *)
Theorem hostel_data_pages_tile
  (limit_param : option string) (pages : list (option string))
  (db : Db) (hostelCache : list Hostel) (limit : Z) (n : nat) :
  Js.orDefault (Js.parseInt (Js.ToString limit_param)) (Js.integer 5)
  = Js.integer limit ->
  1 <= limit ->
  Z.of_nat n * limit <= safe ->
  Z.of_nat (List.length (collection db)) <= safe ->
  healthy 2 (faults db) = true ->
  map (fun p => Js.orDefault (Js.parseInt (Js.ToString p)) (Js.integer 1))
    pages
  = map (fun k => Js.integer (Z.of_nat k)) (seq 1 n) ->
  let answered_pages :=
    List.concat (map (fun p => hostelsOf
                            (run (get_hostel_data p limit_param) db
                               hostelCache))
              pages) in
  answered_pages = firstn (n * Z.to_nat limit) (collection db)
  /\ (Z.of_nat (List.length (collection db)) <= Z.of_nat n * limit ->
      answered_pages = collection db).
Proof.
  intros Hlimit Hl Hsafe Hcount Hdb Hpages answered_pages.
  subst answered_pages.
  rewrite (pages_from limit_param db hostelCache limit n Hlimit Hl Hcount Hdb
             pages 1%nat (le_n 1)); [| |exact Hpages].
  - simpl skipn. split; [reflexivity|]. intros Hall.
    apply firstn_all2. nia.
  - replace (Z.of_nat (1 + n) - 1) with (Z.of_nat n) by lia. exact Hsafe.
Qed.

Lemma hostel_data_pages_tile_witness :
  List.concat (map (fun p => hostelsOf
                          (run (get_hostel_data p (Some "3"%string)) sampleDb
                             []))
            [None; Some "2"%string])
  = [hilltop; northStar; quiet; base].
Proof.
  destruct (hostel_data_pages_tile (Some "3"%string) [None; Some "2"%string]
              sampleDb [] 3 2)
    as [_ Hall];
    [vm_compute; reflexivity | lia
     | apply Z.leb_le; vm_compute; reflexivity
     | apply Z.leb_le; vm_compute; reflexivity
     | reflexivity | vm_compute; reflexivity |].
  apply Hall. simpl. lia.
Defined.

(** X8: sizes of the pages, for page >= 1 and limit >= 1 within the safe
    integers and a store that answers: a page holds min(limit, what is left
    after the skipped documents) records; every page before the last is
    full, the last page is not empty, every page after the last is empty,
    and the number of pages is 0 exactly when the collection is empty. *)
Theorem hostel_data_page_sizes
  (page_param limit_param : option string) (db : Db)
  (hostelCache : list Hostel) (page limit : Z) :
  Js.orDefault (Js.parseInt (Js.ToString page_param)) (Js.integer 1)
  = Js.integer page ->
  Js.orDefault (Js.parseInt (Js.ToString limit_param)) (Js.integer 5)
  = Js.integer limit ->
  1 <= page -> 1 <= limit -> page * limit <= safe ->
  Z.of_nat (List.length (collection db)) <= safe ->
  healthy 2 (faults db) = true ->
  exists o totalPages hostels,
    run (get_hostel_data page_param limit_param) db hostelCache = Some o
    /\ value o
       = json (JsonPage (Js.integer totalPages) (Js.integer page) hostels)
    /\ Z.of_nat (List.length hostels)
       = Z.min limit
           (Z.max 0 (Z.of_nat (List.length (collection db))
                     - (page - 1) * limit))
    /\ (page < totalPages -> Z.of_nat (List.length hostels) = limit)
    /\ (page = totalPages -> hostels <> [])
    /\ (totalPages < page -> hostels = [])
    /\ (totalPages = 0 <-> collection db = []).
Proof.
  intros Hpage Hlimit Hp Hl Hsafe Hcount Hdb.
  pose proof (get_hostel_data_answered page_param limit_param db hostelCache
                page limit Hpage Hlimit Hp Hl Hsafe Hcount Hdb) as Hrun.
  eexists. eexists. eexists. split; [exact Hrun|]. cbn [value].
  split; [reflexivity|].
  pose proof (ceiling_least (Z.of_nat (List.length (collection db))) limit
                ltac:(lia)) as Hceil.
  cbv zeta in Hceil.
  set (count := List.length (collection db)) in *.
  set (totalPages := - (- Z.of_nat count / limit)) in *.
  assert (Hlen : Z.of_nat
                   (List.length
                      (firstn (Z.to_nat limit)
                         (skipn (Z.to_nat ((page - 1) * limit))
                            (collection db))))
                 = Z.min limit (Z.max 0 (Z.of_nat count - (page - 1) * limit))).
  { assert (Hskip : 0 <= (page - 1) * limit) by nia.
    rewrite length_firstn, length_skipn. fold count. lia. }
  split; [exact Hlen|]. split; [|split; [|split]].
  - intros Hlt. rewrite Hlen. nia.
  - intros Heq Hnil. rewrite Hnil in Hlen. simpl in Hlen. nia.
  - intros Hgt.
    destruct (firstn _ _) as [|h l] eqn:E; [reflexivity|].
    exfalso. simpl List.length in Hlen. nia.
  - split.
    + intros Hz. rewrite Hz in Hceil.
      destruct (collection db) as [|h l] eqn:E; [reflexivity|].
      exfalso. subst count. simpl List.length in Hceil. lia.
    + intros Hnil. subst count. rewrite Hnil in Hceil. simpl in Hceil. nia.
Qed.

Lemma hostel_data_page_sizes_witness :
  exists o totalPages hostels,
    run (get_hostel_data (Some "3"%string) (Some "3"%string)) sampleDb []
    = Some o
    /\ value o
       = json (JsonPage (Js.integer totalPages) (Js.integer 3) hostels)
    /\ hostels = [].
Proof.
  destruct (hostel_data_page_sizes (Some "3"%string) (Some "3"%string)
              sampleDb [] 3 3)
    as (o & totalPages & hostels & Hrun & Hval & _ & _ & _ & Hafter & _);
    [vm_compute; reflexivity | vm_compute; reflexivity | lia | lia
     | apply Z.leb_le; vm_compute; reflexivity
     | apply Z.leb_le; vm_compute; reflexivity | reflexivity |].
  exists o, totalPages, hostels. split; [exact Hrun|]. split; [exact Hval|].
  apply Hafter. vm_compute in Hrun. injection Hrun as <-.
  vm_compute in Hval. injection Hval as Ht _.
  assert (Hz : totalPages = 2) by (destruct totalPages; congruence).
  lia.
Defined.

(** *** Queries of [POST /search] *)

Lemma run_post_search_literal
  (query : string) (db : Db) (c : list Hostel) :
  literal query = true ->
  healthy 1 (faults db) = true ->
  answered (run (post_search query) db c)
    (json (JsonHostels
             (List.filter
                (fun h => includesIgnoringCase (location h) query
                          || includesIgnoringCase (name h) query)
                (collection db))))
    c
    [EvFind {| filter := Or [[("location"%string, Regex query "i")];
                             [("name"%string, Regex query "i")]];
               sort := {| sort_rating := None |};
               skip := None; limit := None |}].
Proof.
  intros Hlit Hdb. apply nextFault_healthy in Hdb as (db' & Hn & _ & _).
  unfold post_search. cbn [run]. rewrite Hn. cbn [answer].
  unfold answerFind, find.
  cbn [filter compileFilter compileOr compileDoc compileCond].
  unfold regex. rewrite (compile_literal query Hlit).
  cbn [String.eqb Ascii.eqb Bool.eqb].
  cbn [skip limit Mongo.sort applySort sort_rating applySkip applyLimit
       tryAwait run emit value cache trace].
  rewrite (filter_ext _
             (fun h => includesIgnoringCase (location h) query
                       || includesIgnoringCase (name h) query)).
  - eexists. split; [reflexivity|]. simpl. auto.
  - intros h. unfold field. simpl.
    rewrite !search_literal, !andb_true_r, orb_false_r. reflexivity.
Qed.

Lemma hostelsOf_answered (r : option (Outcome Response)) (l c : list Hostel)
  (calls : list Event) :
  answered r (json (JsonHostels l)) c calls -> hostelsOf r = l.
Proof.
  intros (o & -> & Hv & _). unfold hostelsOf. rewrite Hv. reflexivity.
Qed.

Lemma lowerString_app (a b : string) :
  lowerString (a ++ b) = (lowerString a ++ lowerString b)%string.
Proof. induction a as [|c a IH]; simpl; congruence. Qed.

Lemma startsWith_app_l (s a b : string) :
  startsWith s (a ++ b) = true -> startsWith s a = true.
Proof.
  revert s. induction a as [|x a IH]; intros s; simpl.
  - destruct s; reflexivity.
  - destruct s as [|y s]; [discriminate|].
    intros H. apply andb_true_iff in H as [Hxy H].
    apply andb_true_iff. split; [exact Hxy | apply IH; exact H].
Qed.

Lemma includes_tail (s needle : string) (c : ascii) :
  includes s needle = true -> includes (String c s) needle = true.
Proof. intros H. simpl. rewrite H. apply orb_true_r. Qed.

Lemma startsWith_app_r (s a b : string) :
  startsWith s (a ++ b) = true -> includes s b = true.
Proof.
  revert s. induction a as [|x a IH]; intros s; simpl.
  - intros H. destruct s as [|y s].
    + change (startsWith "" b || false = true). rewrite H. reflexivity.
    + change (startsWith (String y s) b || includes s b = true).
      rewrite H. reflexivity.
  - destruct s as [|y s]; [discriminate|].
    intros H. apply andb_true_iff in H as [_ H].
    apply includes_tail. apply IH. exact H.
Qed.

Lemma includes_empty (needle : string) :
  includes "" needle = startsWith "" needle || false.
Proof. reflexivity. Qed.

Lemma includes_cons (y : ascii) (s needle : string) :
  includes (String y s) needle
  = startsWith (String y s) needle || includes s needle.
Proof. reflexivity. Qed.

Lemma includes_app_l (s a b : string) :
  includes s (a ++ b) = true -> includes s a = true.
Proof.
  induction s as [|y s IH]; intros H.
  - rewrite includes_empty in *. rewrite orb_false_r in *.
    apply startsWith_app_l in H. exact H.
  - rewrite includes_cons in *. apply orb_true_iff in H as [H|H].
    + apply startsWith_app_l in H. rewrite H. reflexivity.
    + rewrite (IH H). apply orb_true_r.
Qed.

Lemma includes_app_r (s a b : string) :
  includes s (a ++ b) = true -> includes s b = true.
Proof.
  induction s as [|y s IH]; intros H.
  - rewrite includes_empty in H. rewrite orb_false_r in H.
    apply startsWith_app_r in H. exact H.
  - rewrite includes_cons in H. apply orb_true_iff in H as [H|H].
    + apply startsWith_app_r in H. exact H.
    + apply includes_tail. apply IH. exact H.
Qed.

Lemma literal_app (a b : string) :
  literal (a ++ b) = true -> literal a = true /\ literal b = true.
Proof.
  unfold literal. induction a as [|c a IH]; simpl; intros H.
  - auto.
  - apply andb_true_iff in H as [Hc H]. destruct (IH H) as [Ha Hb].
    rewrite Hc, Ha. auto.
Qed.

(** X9: the search ignores the letter case of the query: two queries
    without special characters that differ only in letter case get the same
    answer. *)
Theorem search_ignores_query_case
  (query1 query2 : string) (db : Db) (hostelCache : list Hostel) :
  literal query1 = true -> literal query2 = true ->
  lowerString query1 = lowerString query2 ->
  healthy 1 (faults db) = true ->
  exists o1 o2,
    run (post_search query1) db hostelCache = Some o1
    /\ run (post_search query2) db hostelCache = Some o2
    /\ value o1 = value o2.
Proof.
  intros H1 H2 Hlower Hdb.
  destruct (run_post_search_literal query1 db hostelCache H1 Hdb)
    as (o1 & Ho1 & Hv1 & _).
  destruct (run_post_search_literal query2 db hostelCache H2 Hdb)
    as (o2 & Ho2 & Hv2 & _).
  exists o1, o2. split; [exact Ho1|]. split; [exact Ho2|].
  rewrite Hv1, Hv2. unfold includesIgnoringCase. rewrite Hlower.
  reflexivity.
Qed.

Lemma search_ignores_query_case_witness :
  exists o1 o2,
    run (post_search "NoRTH") sampleDb [] = Some o1
    /\ run (post_search "north") sampleDb [] = Some o2
    /\ value o1 = value o2.
Proof.
  apply (search_ignores_query_case "NoRTH" "north" sampleDb []);
    reflexivity.
Defined.

(** X10: an empty query matches everything: with a store that answers,
    [POST /search] with query "" answers the whole collection in store
    order. *)
Theorem search_empty_query_returns_all
  (db : Db) (hostelCache : list Hostel) :
  healthy 1 (faults db) = true ->
  exists o,
    run (post_search "") db hostelCache = Some o
    /\ value o = json (JsonHostels (collection db)).
Proof.
  intros Hdb.
  destruct (run_post_search_literal "" db hostelCache eq_refl Hdb)
    as (o & Ho & Hv & _).
  exists o. split; [exact Ho|]. rewrite Hv.
  rewrite (filter_ext _ (fun _ => true)).
  - rewrite filter_all. reflexivity.
  - intros h. unfold includesIgnoringCase. simpl.
    destruct (lowerString (location h)); reflexivity.
Qed.

Lemma search_empty_query_returns_all_witness :
  exists o,
    run (post_search "") sampleDb [] = Some o
    /\ value o = json (JsonHostels [hilltop; northStar; quiet; base]).
Proof.
  apply (search_empty_query_returns_all sampleDb []). reflexivity.
Defined.

(** X11: a longer query never finds more: for a query without special
    characters, every record answered for the query is also answered for
    any contiguous part of it. *)
Theorem search_longer_query_narrows
  (before part after : string) (db : Db) (hostelCache : list Hostel) :
  literal (before ++ part ++ after) = true ->
  healthy 1 (faults db) = true ->
  forall h,
    In h (hostelsOf (run (post_search (before ++ part ++ after)) db
                       hostelCache)) ->
    In h (hostelsOf (run (post_search part) db hostelCache)).
Proof.
  intros Hlit Hdb h.
  destruct (literal_app _ _ Hlit) as [_ Hrest].
  destruct (literal_app _ _ Hrest) as [Hpart _].
  rewrite (hostelsOf_answered _ _ _ _
             (run_post_search_literal _ db hostelCache Hlit Hdb)).
  rewrite (hostelsOf_answered _ _ _ _
             (run_post_search_literal _ db hostelCache Hpart Hdb)).
  rewrite !filter_In. intros [Hin Hmatch]. split; [exact Hin|].
  assert (Hinc : forall s,
             includesIgnoringCase s (before ++ part ++ after) = true ->
             includesIgnoringCase s part = true).
  { intros s. unfold includesIgnoringCase. rewrite !lowerString_app.
    intros H. apply includes_app_r in H. apply includes_app_l in H.
    exact H. }
  apply orb_true_iff in Hmatch as [H|H]; apply Hinc in H; rewrite H;
    [reflexivity | apply orb_true_r].
Qed.

Lemma search_longer_query_narrows_witness :
  In northStar (hostelsOf (run (post_search "or") sampleDb [])).
Proof.
  apply (search_longer_query_narrows "n" "or" "th" sampleDb []);
    [reflexivity | reflexivity |].
  vm_compute. left. reflexivity.
Defined.

(** *** Ratings of [GET /hostels] *)

Lemma get_hostels_number_answer
  (category_param : option string) (rating_param : string)
  (db : Db) (c : list Hostel) :
  rating_param <> "low-to-high"%string ->
  rating_param <> "high-to-low"%string ->
  Js.isNaN (Js.parseFloat rating_param) = false ->
  healthy 1 (faults db) = true ->
  answered (run (get_hostels category_param (Some rating_param)) db c)
    (json (JsonHostels
             (List.filter
                (fun h => inCategory category_param h
                          && ratingAtLeast (Js.parseFloat rating_param) h)
                (collection db))))
    c
    [EvFind {| filter := Doc (categoryFields category_param
                              ++ [("rating"%string,
                                   Gte (Js.parseFloat rating_param))]);
               sort := {| sort_rating := None |};
               skip := None; limit := None |}].
Proof.
  intros Hlow Hhigh Hnum Hdb.
  destruct (compileDoc_category category_param) as (tc & Hc & Htc).
  destruct (compileDoc_rating (Js.parseFloat rating_param)) as (tr & Hr & Htr).
  destruct (compileDoc_app _ _ _ _ Hc Hr) as (t & Ht & Hth).
  assert (Hrun := run_hostels_find _ {| sort_rating := None |} t db c Hdb Ht).
  apply (answered_console _ _ _ _ ConsoleLog
           [AText "Filtering by rating: ";
            ANumber (Js.parseFloat rating_param)]) in Hrun.
  change (emit _ (run ?p db c))
    with (run (Console ConsoleLog
                 [AText "Filtering by rating: ";
                  ANumber (Js.parseFloat rating_param)] p) db c)
    in Hrun.
  rewrite <- hostels_rating_number in Hrun by assumption.
  apply run_get_hostels_prefix in Hrun.
  cbn [applySort sort_rating] in Hrun.
  rewrite (filter_ext t
             (fun h => inCategory category_param h
                       && ratingAtLeast (Js.parseFloat rating_param) h))
    in Hrun; [exact Hrun|].
  intros h. rewrite Hth, Htc, Htr. reflexivity.
Qed.

Lemma get_hostels_plain_answer
  (category_param : option string) (db : Db) (c : list Hostel) :
  healthy 1 (faults db) = true ->
  answered (run (get_hostels category_param None) db c)
    (json (JsonHostels
             (List.filter (inCategory category_param) (collection db))))
    c
    [EvFind {| filter := Doc (categoryFields category_param);
               sort := {| sort_rating := None |};
               skip := None; limit := None |}].
Proof.
  intros Hdb.
  destruct (compileDoc_category category_param) as (tc & Hc & Htc).
  assert (Hrun := run_hostels_find _ {| sort_rating := None |} tc db c Hdb Hc).
  apply (run_get_hostels_prefix category_param None) in Hrun.
  cbn [applySort sort_rating] in Hrun.
  rewrite (filter_ext tc (inCategory category_param) Htc) in Hrun.
  exact Hrun.
Qed.

Lemma filter_and {A : Type} (f g : A -> bool) (l : list A) :
  List.filter (fun x => f x && g x) l = List.filter g (List.filter f l).
Proof.
  induction l as [|a l IH]; simpl; [reflexivity|].
  destruct (f a); simpl; [|exact IH].
  destruct (g a); rewrite IH; reflexivity.
Qed.

(** X12: a numeric rating only narrows the answer: with a store that
    answers, the records answered with a numeric rating are, in the same
    order, those of the answer to the same request without rating whose
    rating is at least the number; records without a rating are left
    out. *)
Theorem hostels_rating_narrows
  (category_param : option string) (rating_param : string)
  (db : Db) (hostelCache : list Hostel) :
  rating_param <> "low-to-high"%string ->
  rating_param <> "high-to-low"%string ->
  Js.isNaN (Js.parseFloat rating_param) = false ->
  healthy 1 (faults db) = true ->
  hostelsOf (run (get_hostels category_param (Some rating_param)) db
               hostelCache)
  = List.filter
      (fun h => match rating h with
                | Some q => number_leb (Js.parseFloat rating_param) q
                | None => false
                end)
      (hostelsOf (run (get_hostels category_param None) db hostelCache)).
Proof.
  intros Hlow Hhigh Hnum Hdb.
  rewrite (hostelsOf_answered _ _ _ _
             (get_hostels_number_answer category_param rating_param db
                hostelCache Hlow Hhigh Hnum Hdb)).
  rewrite (hostelsOf_answered _ _ _ _
             (get_hostels_plain_answer category_param db hostelCache Hdb)).
  apply filter_and.
Qed.

Lemma hostels_rating_narrows_witness :
  hostelsOf (run (get_hostels None (Some "2.5"%string)) sampleDb [])
  = [hilltop; northStar].
Proof.
  rewrite (hostels_rating_narrows None "2.5"%string sampleDb []);
    [reflexivity | discriminate | discriminate | reflexivity | reflexivity].
Defined.

(** What follows a number does not matter to [parseFloat]. *)

Lemma fraction_absent (suffix : string) (ip : Z) :
  endsNumber suffix ->
  match suffix with
  | String "." t => Js.digits 10 t ip 0
  | _ => (ip, O, suffix)
  end = (ip, O, suffix).
Proof.
  destruct suffix as [|c t]; [reflexivity|]. intros (_ & Hdot & _).
  destruct c as [b0 b1 b2 b3 b4 b5 b6 b7].
  destruct b0, b1, b2, b3, b4, b5, b6, b7; try reflexivity.
  exfalso. apply Hdot. reflexivity.
Qed.

Lemma exponent_absent (suffix : string) :
  endsNumber suffix -> Js.exponentPart suffix = 0.
Proof.
  destruct suffix as [|c t]; [reflexivity|]. intros (_ & _ & He & HE).
  unfold Js.exponentPart.
  destruct (Ascii.eqb_spec c "e") as [E|_]; [contradiction|].
  destruct (Ascii.eqb_spec c "E") as [E|_]; [contradiction|].
  reflexivity.
Qed.

Lemma digits_numeral_suffix (ds : list Z) (suffix : string) (acc : Z)
  (count : nat) :
  Forall (fun d => 0 <= d <= 9) ds -> endsNumber suffix ->
  Js.digits 10 (numeralDigits ds ++ suffix) acc count
  = (fold_left (fun a d => a * 10 + d) ds acc,
     (count + List.length ds)%nat, suffix).
Proof.
  intros H Hend. revert acc count.
  induction H as [|d r Hd Hr IH]; intros acc count; simpl.
  - rewrite Nat.add_0_r. destruct suffix as [|c t]; [reflexivity|].
    destruct Hend as (Hdigit & _). simpl. rewrite Hdigit. reflexivity.
  - rewrite (digitIn_digitChar d Hd), IH, Nat.add_succ_r. reflexivity.
Qed.

Lemma numeral_suffix_plain (d : Z) (rest : string) :
  0 <= d <= 9 ->
  let s := String (digitChar d) rest in
  Js.trimStart s = s /\ Js.signOf s = (false, s)
  /\ String.prefix "Infinity" s = false
  /\ s <> "low-to-high"%string /\ s <> "high-to-low"%string.
Proof.
  intros Hd. cbv zeta.
  each_digit Hd; (split; [apply trimStart_other; reflexivity|]);
    repeat split; discriminate.
Qed.

Lemma parseFloat_numeral_suffix (negative : bool) (ds : list Z)
  (suffix : string) :
  isDigits ds -> numeralValue ds <= safe -> endsNumber suffix ->
  Js.parseFloat (numeral negative ds ++ suffix)
  = Js.integer (Js.applySign negative (numeralValue ds)).
Proof.
  intros [Hne Hds] Hsafe Hend.
  pose proof (numeralValue_nonneg ds Hds) as Hnonneg.
  destruct ds as [|d r]; [congruence|].
  inversion Hds as [|? ? Hd Hr]; subst.
  pose proof (digits_numeral_suffix (d :: r) suffix 0 0 Hds Hend) as Hdigits.
  destruct (numeral_suffix_plain d (numeralDigits r ++ suffix) Hd)
    as (Htrim & Hsign & Hinf & _).
  cbv zeta in Htrim, Hsign, Hinf.
  change (String (digitChar d) (numeralDigits r ++ suffix))
    with (numeralDigits (d :: r) ++ suffix)%string in Htrim, Hsign, Hinf.
  unfold numeralValue in *.
  set (body := (numeralDigits (d :: r) ++ suffix)%string) in *.
  set (v := fold_left (fun a d0 => a * 10 + d0) (d :: r) 0) in *.
  assert (Hbody : Js.signOf (Js.trimStart (numeral negative (d :: r) ++ suffix))
                  = (negative, body)).
  { destruct negative.
    - change (numeral true (d :: r) ++ suffix)%string with (String "-" body).
      rewrite trimStart_other by reflexivity. reflexivity.
    - change (numeral false (d :: r) ++ suffix)%string with body.
      rewrite Htrim. exact Hsign. }
  unfold Js.parseFloat. rewrite Hbody, Hinf, Hdigits.
  rewrite (fraction_absent suffix v Hend).
  rewrite (exponent_absent suffix Hend).
  cbn [List.length Nat.add]. unfold Js.scale10. simpl Z.of_nat.
  change (0 <=? 0 - 0) with true. cbv iota.
  change (10 ^ (0 - 0)) with 1. rewrite Z.mul_1_r.
  apply ofInteger_safe.
  unfold Js.applySign, safe in *. destruct negative; lia.
Qed.

(** X13: the validation of the rating looks only at the start of the
    parameter: a rating that starts with a decimal integer within the safe
    integers, whatever follows that is no digit, dot or exponent mark, is
    accepted and filters as that integer; the records answered are those of
    the category whose rating is at least it. *)
Theorem hostels_rating_numeric_prefix
  (category_param : option string) (negative : bool) (ds : list Z)
  (suffix : string) (db : Db) (hostelCache : list Hostel) :
  isDigits ds -> numeralValue ds <= safe -> endsNumber suffix ->
  healthy 1 (faults db) = true ->
  let threshold := Js.applySign negative (numeralValue ds) in
  exists o,
    run (get_hostels category_param (Some (numeral negative ds ++ suffix)%string))
        db hostelCache = Some o
    /\ value o
       = json (JsonHostels
                 (List.filter
                    (fun h => inCategory category_param h
                              && match rating h with
                                 | Some q => Qle_bool (inject_Z threshold) q
                                 | None => false
                                 end)
                    (collection db)))
    /\ storeCalls (trace o)
       = [EvFind {| filter := Doc (categoryFields category_param
                                    ++ [("rating"%string,
                                         Gte (Js.integer threshold))]);
                    sort := {| sort_rating := None |};
                    skip := None; limit := None |}].
Proof.
  intros Hds Hsafe Hend Hdb threshold.
  pose proof (parseFloat_numeral_suffix negative ds suffix Hds Hsafe Hend)
    as Hparse.
  fold threshold in Hparse.
  assert (Htokens : (numeral negative ds ++ suffix)%string
                    <> "low-to-high"%string
                    /\ (numeral negative ds ++ suffix)%string
                       <> "high-to-low"%string).
  { destruct Hds as [Hne Hall]. destruct ds as [|d r]; [congruence|].
    inversion Hall as [|? ? Hd Hr]; subst.
    destruct negative; [split; discriminate|].
    destruct (numeral_suffix_plain d (numeralDigits r ++ suffix) Hd)
      as (_ & _ & _ & Hlow & Hhigh).
    split; assumption. }
  destruct Htokens as [Hlow Hhigh].
  assert (Hnum : Js.isNaN (Js.parseFloat (numeral negative ds ++ suffix))
                 = false) by (rewrite Hparse; reflexivity).
  destruct (get_hostels_number_answer category_param _ db hostelCache
              Hlow Hhigh Hnum Hdb) as (o & Ho & Hv & _ & Hcalls).
  rewrite Hparse in Hv, Hcalls.
  exists o. split; [exact Ho|]. split; [exact Hv | exact Hcalls].
Qed.

Lemma hostels_rating_numeric_prefix_witness :
  exists o,
    run (get_hostels None (Some "3 stars"%string)) sampleDb [] = Some o
    /\ value o = json (JsonHostels [hilltop; northStar]).
Proof.
  destruct (hostels_rating_numeric_prefix None false [3] " stars"%string
              sampleDb [])
    as (o & Hrun & Hval & _).
  - split; [discriminate | repeat constructor; lia].
  - apply Z.leb_le. vm_compute. reflexivity.
  - repeat split; discriminate.
  - reflexivity.
  - exists o. split; [exact Hrun|]. rewrite Hval. reflexivity.
Defined.

(** *** Status codes *)

(** X14: what each status code means, for any request, store and cache:
    the request is answered, and the answer is 200, or it is 404 "Hostel
    not found" and the request is a lookup by name, or it is 400 and the
    request is [GET /hostels] with a rating that fails the validation, no
    store call having been made, or it is 500 with a message and an error
    after at least one store call.  No request makes more than two store
    calls. *)
Theorem statuses_by_route
  (req : Request) (db : Db) (hostelCache : list Hostel) :
  exists o,
    run (handle req) db hostelCache = Some o
    /\ (status (value o) = 200
        \/ (value o = statusSend 404 "Hostel not found"
            /\ exists hostelName, req = GetHostelName hostelName)
        \/ (status (value o) = 400
            /\ storeCalls (trace o) = []
            /\ exists category rating,
                 req = GetHostels category rating
                 /\ ratingAccepted rating = false)
        \/ (status (value o) = 500
            /\ reachesStore req = true
            /\ storeCalls (trace o) <> []
            /\ exists message e,
                 body (value o) = JsonMessage message (Some e)))
    /\ (List.length (storeCalls (trace o)) <= 2)%nat.
Proof.
  destruct (run_total (handle req) db hostelCache) as [o H].
  exists o. split; [exact H|].
  destruct req as [| |hostelName|page limit|category rating|query|limit];
    cbn [handle] in H.
  - step_run H. injection H as <-. simpl. auto.
  - step_run H. injection H as <-. simpl. auto.
  - unfold get_hostel_name in H. step_run H; injection H as <-; simpl.
    + auto.
    + split; [|lia]. right. left. split; [reflexivity|]. eauto.
  - unfold get_hostel_data in H. cbv zeta in H.
    step_run H; injection H as <-; simpl; (split; [|lia]);
      first [ left; reflexivity
            | right; right; right; repeat split; eauto; discriminate ].
  - rewrite get_hostels_eq in H.
    unfold hostels_rating, hostels_find, hostels_catch in H. cbv zeta in H.
    step_run H; injection H as <-; simpl; (split; [|lia]);
      first [ left; reflexivity
            | right; right; left; split; [reflexivity|];
              split; [reflexivity|];
              do 2 eexists; split; [reflexivity|]; rating_facts
            | right; right; right; split; [reflexivity|];
              split; [rating_facts|]; split; [discriminate|];
              do 2 eexists; reflexivity ].
  - unfold post_search in H.
    step_run H; injection H as <-; simpl; (split; [|lia]);
      first [ left; reflexivity
            | right; right; right; repeat split; eauto; discriminate ].
  - unfold get_hostel_limit in H. cbv zeta in H.
    step_run H. injection H as <-. simpl. auto.
Qed.

Lemma statuses_by_route_witness :
  exists o,
    run (handle (GetHostels None (Some "banana"%string))) downDb [] = Some o
    /\ status (value o) = 400
    /\ storeCalls (trace o) = [].
Proof.
  destruct (statuses_by_route (GetHostels None (Some "banana"%string)) downDb
              [])
    as (o & Hrun & [H|[[H _]|[(H & Hcalls & _)|(H & _)]]] & _);
    exists o; (split; [exact Hrun|]);
    vm_compute in Hrun; injection Hrun as <-;
    try discriminate H.
  split; [exact H | exact Hcalls].
Defined.
